(** * CatSys: the fold utility, the law verification engine and the
      command/event pipeline, embedded from the TypeScript sources.

    Layout, following the repository:
    - [Js]            : the few JavaScript notions the sources rely on
                        (thrown values, truthiness, template strings);
    - [Effects]       : promises over the ports ([sql], [kv], [bus]) and the
                        process-wide [__seen] set, as a free monad with
                        [try]/[catch], and its interpreter with a trace;
    - [Spec]          : [src/spec.ts], the URL shortener's pure arrows;
    - [LawEnforcement]: [src/law-enforcement.ts] and [DomainSpec.verifyLaws]
                        of [src/app/compose-generic.ts];
    - [HandlersGeneric]: [src/app/handlers-generic.ts];
    - [Handlers]      : [src/app/handlers.ts];
    - [Counter], [TestDoubles]: concrete domains and ports to evaluate on;
    - the properties, stated after all the definitions. *)

From Stdlib Require Import ZArith List String Ascii Bool Lia.
From Stdlib Require Import DecimalString.
From stdpp Require Import gmap strings.
Import ListNotations.

Local Open Scope string_scope.
Local Open Scope list_scope.

(* ===================================================================== *)
(** ** JavaScript preliminaries *)
(* ===================================================================== *)

Module Js.

(** A value that was thrown, or with which a promise was rejected:
    an [Error] object carrying a message, or any other value, kept with
    the text [String(value)] gives for it. *)
Inductive Thrown : Type :=
| JsError (message : string)
| JsOther (text : string).

(** [error instanceof Error ? error.message : String(error)] *)
Definition error_text (t : Thrown) : string :=
  match t with
  | JsError m => m
  | JsOther s => s
  end.

(** Truthiness of a string: every string but the empty one. *)
Definition truthy (s : string) : bool := negb (String.eqb s "").

(** Truthiness of a [string | null] or [string | undefined]. *)
Definition truthy_opt (o : option string) : bool :=
  match o with
  | Some s => truthy s
  | None => false
  end.

(** The text of a [string | undefined] known to be a string. *)
Definition as_text (o : option string) : string :=
  match o with
  | Some s => s
  | None => ""
  end.

(** [a || b] where [a : string | undefined] and [b : string]. *)
Definition or_else (a : option string) (b : string) : string :=
  match a with
  | Some s => if truthy s then s else b
  | None => b
  end.

(** [`${n}`] for a non-negative integer. *)
Definition show_nat (n : nat) : string :=
  NilEmpty.string_of_uint (Nat.to_uint n).

(** [xs.join(sep)] *)
Fixpoint join (sep : string) (xs : list string) : string :=
  match xs with
  | [] => ""
  | [x] => x
  | x :: rest => x +:+ sep +:+ join sep rest
  end.

(** One line feed, as in a template string that spans lines. *)
Definition nl : string := String (ascii_of_nat 10) EmptyString.

(** [s] occurs in [t] as a contiguous piece of text. *)
Definition occurs_in (s t : string) : Prop :=
  exists pre post, t = pre +:+ s +:+ post.

End Js.
Import Js.

(* ===================================================================== *)
(** ** Effects: awaited port calls, the [__seen] set, [try]/[catch] *)
(* ===================================================================== *)

Module Effects.
Section WithEvent.

Context {Event : Type}.

(** The calls the handlers make on the ports they are given:
    [sql.query(q, p)], [kv.get(k)], [kv.set(k, v, ttl)], [bus.publish(e)].
    Query parameters are the JSON texts the handlers pass. *)
Inductive Call : Type :=
| SqlQuery (q : string) (p : list string)
| KvGet (k : string)
| KvSet (k v : string) (ttl : Z)
| BusPublish (e : Event).

(** What a fulfilled call gives back. [kv.get] gives [string | null];
    the result of every other call is discarded by the handlers. *)
Definition Reply (c : Call) : Type :=
  match c with
  | KvGet _ => option string
  | _ => unit
  end.

(** An [async] body. [Await c k] awaits the port call [c]: the promise
    is rejected ([inl]) or fulfilled ([inr]) and [k] goes on from there.
    [SeenHas] and [SeenAdd] read and extend [globalThis.__seen]. *)
Inductive Prog (A : Type) : Type :=
| Ret (a : A)
| Throw (t : Thrown)
| Await (c : Call) (k : Thrown + Reply c -> Prog A)
| SeenHas (id : string) (k : bool -> Prog A)
| SeenAdd (id : string) (k : Prog A).

Arguments Ret {A} a.
Arguments Throw {A} t.
Arguments Await {A} c k.
Arguments SeenHas {A} id k.
Arguments SeenAdd {A} id k.

Fixpoint bind {A B : Type} (p : Prog A) (f : A -> Prog B) : Prog B :=
  match p with
  | Ret a => f a
  | Throw t => Throw t
  | Await c k => Await c (fun r => bind (k r) f)
  | SeenHas id k => SeenHas id (fun b => bind (k b) f)
  | SeenAdd id k => SeenAdd id (bind k f)
  end.

(** [try { p } catch (error) { h error }] *)
Fixpoint try_catch {A : Type} (p : Prog A) (h : Thrown -> Prog A) : Prog A :=
  match p with
  | Ret a => Ret a
  | Throw t => h t
  | Await c k => Await c (fun r => try_catch (k r) h)
  | SeenHas id k => SeenHas id (fun b => try_catch (k b) h)
  | SeenAdd id k => SeenAdd id (try_catch k h)
  end.

(** [await port.call(...)]: a rejection is rethrown at the [await]. *)
Definition await (c : Call) : Prog (Reply c) :=
  Await c (fun r => match r with inl t => Throw t | inr v => Ret v end).

Definition seen_has (id : string) : Prog bool := SeenHas id Ret.
Definition seen_add (id : string) : Prog unit := SeenAdd id (Ret tt).

(** [for (const x of xs) await body(x)] *)
Fixpoint for_each {X : Type} (xs : list X) (body : X -> Prog unit) : Prog unit :=
  match xs with
  | [] => Ret tt
  | x :: rest => bind (body x) (fun _ => for_each rest body)
  end.

(** *** Running a body against ports *)

(** One entry of the trace: a port call and whether it was fulfilled. *)
Inductive Obs : Type :=
| Performed (c : Call) (fulfilled : bool).

Section Run.
(** The ports are any stateful implementation: each call answers with a
    rejection or a result and leaves the ports in a new state. *)
Context {W : Type} (port : forall c : Call, W -> (Thrown + Reply c) * W).

Definition is_fulfilled {X : Type} (r : Thrown + X) : bool :=
  match r with inl _ => false | inr _ => true end.

(** Outcome of a run: the settled value, the ports and [__seen]
    afterwards, and the port calls in the order they were made. *)
Record Outcome (A : Type) : Type := mkOutcome {
  settled : Thrown + A;
  ports_after : W;
  seen_after : gset string;
  trace : list Obs
}.
Arguments mkOutcome {A}.
Arguments settled {A}.
Arguments ports_after {A}.
Arguments seen_after {A}.
Arguments trace {A}.

Definition after {A : Type} (o : Obs) (out : Outcome A) : Outcome A :=
  mkOutcome (settled out) (ports_after out) (seen_after out) (o :: trace out).

Fixpoint run {A : Type} (p : Prog A) (w : W) (seen : gset string) : Outcome A :=
  match p with
  | Ret a => mkOutcome (inr a) w seen []
  | Throw t => mkOutcome (inl t) w seen []
  | Await c k =>
      let '(r, w') := port c w in
      after (Performed c (is_fulfilled r)) (run (k r) w' seen)
  | SeenHas id k => run (k (bool_decide (id ∈ seen))) w seen
  | SeenAdd id k => run k w ({[ id ]} ∪ seen)
  end.

End Run.

End WithEvent.

Arguments Call : clear implicits.
Arguments Prog : clear implicits.
Arguments Obs : clear implicits.
Arguments Outcome : clear implicits.
Arguments Ret {Event A} a.
Arguments Throw {Event A} t.
Arguments Await {Event A} c k.
Arguments SeenHas {Event A} id k.
Arguments SeenAdd {Event A} id k.
Arguments mkOutcome {Event W A}.
Arguments settled {Event W A}.
Arguments ports_after {Event W A}.
Arguments seen_after {Event W A}.
Arguments trace {Event W A}.

Notation "'let*' x := p 'in' q" := (bind p (fun x => q))
  (at level 10, x pattern, p at level 100, q at level 200).

End Effects.
Import Effects.

(* ===================================================================== *)
(** ** [src/spec.ts]: the URL shortener *)
(* ===================================================================== *)

Module Spec.

(** [fold(f, s0, events) = events.reduce(f, s0)] *)
Definition fold {S E : Type} (f : S -> E -> S) (s0 : S) (events : list E) : S :=
  fold_left f events s0.

(** *** Objects used as dictionaries

    A [Record<string, string>] is kept as the list of its own properties
    in insertion order. Keys that spell an array index (which JavaScript
    enumerates first) and the members inherited from [Object.prototype]
    are outside this model; neither is relied on below. *)
Definition Rec : Type := list (string * string).

(** [r[k]], [undefined] being [None] *)
Fixpoint rec_get (r : Rec) (k : string) : option string :=
  match r with
  | [] => None
  | (k', v) :: rest => if String.eqb k' k then Some v else rec_get rest k
  end.

(** [{ ...r, [k]: v }]: an existing key keeps its place *)
Fixpoint rec_set (r : Rec) (k v : string) : Rec :=
  match r with
  | [] => [(k, v)]
  | (k', v') :: rest =>
      if String.eqb k' k then (k', v) :: rest else (k', v') :: rec_set rest k v
  end.

(** [const { [k]: _, ...rest } = r] *)
Definition rec_remove (r : Rec) (k : string) : Rec :=
  List.filter (fun kv => negb (String.eqb (fst kv) k)) r.

(** [Object.keys(r)] *)
Definition rec_keys (r : Rec) : list string := map fst r.

(** A property access used as a key: [undefined] becomes the text
    ["undefined"]. *)
Definition as_key (o : option string) : string :=
  match o with
  | Some s => s
  | None => "undefined"
  end.

(** *** Core objects *)

(** A field of type [unknown]: a string, [undefined], or some other
    value, of which only the truthiness matters here. *)
Inductive Unknown : Type :=
| UString (s : string)
| UUndefined
| UOther (is_truthy : bool).

Record Raw : Type := mkRaw {
  raw_url : Unknown;
  raw_custom : Unknown;
  raw_short : Unknown;
  raw_userId : Unknown
}.

Record Domain : Type := mkDomain {
  url : string;
  custom : option string;
  short : option string;
  userId : option string
}.

Inductive Command : Type :=
| Create (long : string) (custom userId id : option string)
| Resolve (short : string) (id : option string)
| Expire (short : string) (id : option string).

Inductive Event : Type :=
| Created (short long : string) (userId : option string) (id timestamp : string)
| CustomTaken (custom id timestamp : string)
| Expired (short id timestamp : string)
| Clicked (short id timestamp : string).

(** [version] counts events. A JavaScript number is exact on the
    integers below [2^53], far above any count a fold over an array can
    reach, so it is an integer here. *)
Record State : Type := mkState {
  version : Z;
  byShort : Rec;
  byLong : Rec;
  active : gset string
}.

Definition command_id (c : Command) : option string :=
  match c with
  | Create _ _ _ id => id
  | Resolve _ id => id
  | Expire _ id => id
  end.

Definition event_id (e : Event) : string :=
  match e with
  | Created _ _ _ id _ => id
  | CustomTaken _ id _ => id
  | Expired _ id _ => id
  | Clicked _ id _ => id
  end.

Definition s0 : State :=
  {| version := 0; byShort := []; byLong := []; active := ∅ |}.

(** *** Pure arrows *)

(** [typeof u === 'string' && u], as a [string | undefined] *)
Definition truthy_string (u : Unknown) : option string :=
  match u with
  | UString s => if truthy s then Some s else None
  | _ => None
  end.

Definition normalize (r : Raw) : Thrown + Domain :=
  match truthy_string (raw_url r) with
  | None => inl (JsError "Invalid URL")
  | Some u =>
      inr {| url := u;
             custom := truthy_string (raw_custom r);
             short := truthy_string (raw_short r);
             userId := truthy_string (raw_userId r) |}
  end.

(** The [default: return false] of [validate] (and the [default] of
    [decide]) is for a [kind] outside the union [Command], which the
    type excludes. *)
Definition validate (c : Command) : bool :=
  match c with
  | Create long _ _ _ => (0 <? String.length long)%nat && String.prefix "http" long
  | Resolve short _ => (0 <? String.length short)%nat
  | Expire short _ => (0 <? String.length short)%nat
  end.

(** [ToInt32]: the 32-bit two's complement reading of an integer *)
Definition to_int32 (z : Z) : Z := ((z + 2 ^ 31) mod 2 ^ 32 - 2 ^ 31)%Z.

(** One turn of the loop of [genShort]; [<<] and [&] work on 32 bits,
    [-] and [+] do not (and stay exact). Characters are the code units
    of the string, one byte each in this model. *)
Definition hash_step (hash : Z) (ch : ascii) : Z :=
  let char := Z.of_nat (nat_of_ascii ch) in
  let hash := (to_int32 (Z.shiftl (to_int32 hash) 5) - hash + char)%Z in
  to_int32 hash.

Fixpoint hash_loop (long : string) (hash : Z) : Z :=
  match long with
  | EmptyString => hash
  | String ch rest => hash_loop rest (hash_step hash ch)
  end.

Definition digit36 (d : Z) : ascii :=
  match String.get (Z.to_nat d) "0123456789abcdefghijklmnopqrstuvwxyz" with
  | Some a => a
  | None => "0"%char
  end.

Fixpoint to_base36_from (fuel : nat) (n : Z) (acc : string) : string :=
  match fuel with
  | O => acc
  | S fuel' =>
      let acc' := String (digit36 (n mod 36)) acc in
      if (n / 36 =? 0)%Z then acc' else to_base36_from fuel' (n / 36)%Z acc'
  end.

(** [n.toString(36)] for an integer [n >= 0]; a number has no more
    digits in base 36 than in base 2. *)
Definition to_base36 (n : Z) : string :=
  to_base36_from (S (Z.to_nat (Z.log2 n))) n "".

Definition genShort (long : string) : string :=
  String.substring 0 6 (to_base36 (Z.abs (hash_loop long 0))).

(** What a call of [decide] reads from its surroundings: the text
    [Math.random().toString(36).substring(7)] and
    [new Date().toISOString()]. *)
Record Ambient : Type := mkAmbient {
  random_id : string;
  now_iso : string
}.

Definition decide (amb : Ambient) (s : State) (c : Command) : list Event :=
  let id := or_else (command_id c) (random_id amb) in
  let timestamp := now_iso amb in
  match c with
  | Create long custom userId _ =>
      let short := or_else custom (genShort long) in
      match rec_get (byShort s) short with
      | Some l =>
          if truthy l && negb (String.eqb l long)
          then [CustomTaken short id timestamp]
          else if String.eqb l long
          then []
          else [Created short long userId id timestamp]
      | None => [Created short long userId id timestamp]
      end
  | Resolve short _ =>
      if bool_decide (short ∈ active s) then [Clicked short id timestamp] else []
  | Expire short _ =>
      if bool_decide (short ∈ active s) then [Expired short id timestamp] else []
  end.

Definition evolve (s : State) (e : Event) : State :=
  match e with
  | Created short long _ _ _ =>
      {| version := version s + 1;
         byShort := rec_set (byShort s) short long;
         byLong := rec_set (byLong s) long short;
         active := active s ∪ {[ short ]} |}
  | Expired short _ _ =>
      let restByShort := rec_remove (byShort s) short in
      let long := rec_get (byShort s) short in
      let restByLong := rec_remove (byLong s) (as_key long) in
      let newActive := active s ∖ {[ short ]} in
      {| version := version s + 1;
         byShort := restByShort;
         byLong := restByLong;
         active := newActive |}
  | _ => s
  end.

(** *** The read model *)

(** A [Record<string, number>], kept like [Rec]. *)
Definition Counts : Type := list (string * Z).

Fixpoint count_get (r : Counts) (k : string) : option Z :=
  match r with
  | [] => None
  | (k', v) :: rest => if String.eqb k' k then Some v else count_get rest k
  end.

Fixpoint count_set (r : Counts) (k : string) (v : Z) : Counts :=
  match r with
  | [] => [(k, v)]
  | (k', v') :: rest =>
      if String.eqb k' k then (k', v) :: rest else (k', v') :: count_set rest k v
  end.

Definition count_remove (r : Counts) (k : string) : Counts :=
  List.filter (fun kv => negb (String.eqb (fst kv) k)) r.

(** [n || 0] for a [number | undefined] *)
Definition or_zero (o : option Z) : Z :=
  match o with
  | Some n => n
  | None => 0
  end.

Record TopUrl : Type := mkTopUrl {
  top_short : string;
  top_clicks : Z
}.

Record View : Type := mkView {
  lastUpdate : string;
  clicks : Counts;
  topUrls : list TopUrl;
  urls : Rec
}.

(** [v0]; [loaded] is [new Date().toISOString()] when the module was
    loaded. *)
Definition v0 (loaded : string) : View :=
  {| lastUpdate := loaded; clicks := []; topUrls := []; urls := [] |}.

(** [.sort((a, b) => b.clicks - a.clicks)]: the sort of an array is
    stable, so among equal counts the earlier entry stays first. *)
Fixpoint insert_by_clicks (x : TopUrl) (sorted : list TopUrl) : list TopUrl :=
  match sorted with
  | [] => [x]
  | y :: rest =>
      if (top_clicks x <? top_clicks y)%Z then y :: insert_by_clicks x rest
      else x :: y :: rest
  end.

Definition sort_by_clicks (l : list TopUrl) : list TopUrl :=
  fold_right insert_by_clicks [] l.

(** [Object.entries(c).map(...).sort(...).slice(0, 10)] *)
Definition top_ten (c : Counts) : list TopUrl :=
  firstn 10 (sort_by_clicks (map (fun kv => mkTopUrl (fst kv) (snd kv)) c)).

Definition event_timestamp (e : Event) : string :=
  match e with
  | Created _ _ _ _ t => t
  | CustomTaken _ _ t => t
  | Expired _ _ t => t
  | Clicked _ _ t => t
  end.

Definition project (v : View) (e : Event) : View :=
  match e with
  | Clicked short _ timestamp =>
      let newClicks :=
        count_set (clicks v) short (or_zero (count_get (clicks v) short) + 1) in
      let topUrls := top_ten newClicks in
      {| lastUpdate := timestamp;
         clicks := newClicks;
         topUrls := topUrls;
         urls := urls v |}
  | Created short long _ _ timestamp =>
      {| lastUpdate := timestamp;
         clicks := count_set (clicks v) short 0;
         topUrls := topUrls v;
         urls := rec_set (urls v) short long |}
  | Expired short _ timestamp =>
      let restClicks := count_remove (clicks v) short in
      let restUrls := rec_remove (urls v) short in
      let topUrls := top_ten restClicks in
      {| lastUpdate := timestamp;
         clicks := restClicks;
         topUrls := topUrls;
         urls := restUrls |}
  | _ => v
  end.

Record Answer : Type := mkAnswer {
  getClicks : string -> Z;
  getTopUrls : unit -> list TopUrl;
  getTotalClicks : unit -> Z;
  resolveUrl : string -> option string
}.

(** [r[k] || null] *)
Definition truthy_or_null (o : option string) : option string :=
  match o with
  | Some s => if truthy s then Some s else None
  | None => None
  end.

Definition queries (v : View) : Answer :=
  {| getClicks := fun short => or_zero (count_get (clicks v) short);
     getTopUrls := fun _ => topUrls v;
     getTotalClicks := fun _ => fold_left (fun a b => a + b)%Z (map snd (clicks v)) 0%Z;
     resolveUrl := fun short => truthy_or_null (rec_get (urls v) short) |}.

Definition deriveView (s : State) : Answer :=
  {| getClicks := fun _ => 0%Z;
     getTopUrls := fun _ => [];
     getTotalClicks := fun _ => 0%Z;
     resolveUrl := fun short => truthy_or_null (rec_get (byShort s) short) |}.

(** *** Aggregation and joins *)

Definition Agg : Type := Counts.

Definition agg_empty : Agg := [].

(** [aggMonoid.combine]: the entries of [a], then those of [b] added
    in. *)
Definition agg_combine (a b : Agg) : Agg :=
  fold_left (fun result kv =>
               count_set result (fst kv) (or_zero (count_get result (fst kv)) + snd kv)%Z)
    b (fold_left (fun result kv => count_set result (fst kv) (snd kv)) a []).

Definition aggregate (acc : Agg) (e : Event) : Agg :=
  match e with
  | Clicked short _ _ => count_set acc short (or_zero (count_get acc short) + 1)%Z
  | _ => acc
  end.

(** [pullbackJoin(as, bs, join)]; [key_a] and [key_b] read the [key]
    fields, compared with [===]. *)
Definition pullbackJoin {A B K R : Type} `{EqDecision K} (key_a : A -> K)
    (key_b : B -> K) (as_ : list A) (bs : list B) (join : A -> B -> R) : list R :=
  flat_map (fun a =>
              map (fun b => join a b)
                (List.filter (fun b => bool_decide (key_a a = key_b b)) bs))
    as_.

(** *** Planning *)

Record Demand : Type := mkDemand {
  demand_userId : string;
  demand_url : string;
  demand_custom : option string
}.

Inductive PlanAction : Type := PlanCreate | PlanReuse.

(** [score] is 1.0 or 0.5, kept here in halves. *)
Record Plan : Type := mkPlan {
  plan_action : PlanAction;
  plan_short : string;
  plan_score_halves : Z
}.

Definition plan (s : State) (demand : Demand) : Plan :=
  let existing := rec_get (byLong s) (demand_url demand) in
  if truthy_opt existing && bool_decide (as_text existing ∈ active s) then
    {| plan_action := PlanReuse; plan_short := as_text existing; plan_score_halves := 2 |}
  else
    let short := or_else (demand_custom demand) (genShort (demand_url demand)) in
    let score := if truthy_opt (rec_get (byShort s) short) then 1%Z else 2%Z in
    {| plan_action := PlanCreate; plan_short := short; plan_score_halves := score |}.

(** *** What the statements about these arrows speak of *)

(** The events [evolve] counts in [version]. *)
Definition bumps_version (e : Event) : bool :=
  match e with
  | Created _ _ _ _ _ | Expired _ _ _ => true
  | _ => false
  end.

(** A character [0-9a-z]. *)
Definition is_base36 (a : ascii) : bool :=
  let n := nat_of_ascii a in
  ((48 <=? n) && (n <=? 57) || (97 <=? n) && (n <=? 122))%nat.

Fixpoint all_chars (p : ascii -> bool) (s : string) : bool :=
  match s with
  | EmptyString => true
  | String a rest => p a && all_chars p rest
  end.

(** The active shorts are the keys of [byShort]. *)
Definition active_are_keys (s : State) : Prop :=
  forall k, k ∈ active s <-> rec_get (byShort s) k <> None.

(** Descending by clicks. *)
Fixpoint descending (l : list TopUrl) : Prop :=
  match l with
  | [] => True
  | x :: rest =>
      (forall y, In y rest -> (top_clicks y <= top_clicks x)%Z) /\ descending rest
  end.

End Spec.

(* ===================================================================== *)
(** ** [src/law-enforcement.ts]: the law verification engine *)
(* ===================================================================== *)

Module LawEnforcement.

Record LawVerificationResult : Type := mkResult {
  law : string;
  passed : bool;
  error : option string;
  description : string
}.

Record LawVerificationSuite : Type := mkSuite {
  allPassed : bool;
  results : list LawVerificationResult;
  passedCount : nat;
  totalCount : nat
}.

(** [fc.assert(fc.property(arb, predicate), { numRuns })]: the predicate
    is tried on [numRuns] drawn values, and the first one it rejects makes
    the assertion throw. [draw i] is the value of run [i]; [report i] is
    the text of the error fast-check builds for a failure found at run [i]
    (seed, shrunk counterexample). *)
Definition fc_assert {A : Type} (report : nat -> string) (numRuns : nat)
    (draw : nat -> A) (predicate : A -> bool) : Thrown + unit :=
  match find (fun i => negb (predicate (draw i))) (seq 0 numRuns) with
  | Some i => inl (JsError (report i))
  | None => inr tt
  end.

Section WithDomain.

Context {Raw Domain Command Event State View Answer : Type}.

(** [Env] is what a call of [decide] may read besides its arguments (wall
    clock, random numbers); the other arrows are functions of their
    arguments. [Seed] is the state of fast-check's random source: an
    arbitrary turns a seed into a value. *)
Context {Env Seed : Type}.

Definition Arbitrary (A : Type) : Type := Seed -> A.

Record DomainLaws : Type := mkLaws {
  normalize : Raw -> Thrown + Domain;
  validate : Command -> bool;
  decide : Env -> State -> Command -> list Event;
  evolve : State -> Event -> State;
  project : View -> Event -> View;
  queries : View -> Answer;
  deriveView : State -> Answer;
  initialState : State;
  initialView : View;
  generateEvents : Arbitrary (list Event);
  generateCommands : Arbitrary Command;
  generateRaw : Arbitrary Raw;
  fold : forall S E : Type, (S -> E -> S) -> S -> list E -> S
}.

(** The language primitives the engine applies to domain values:
    [JSON.stringify] (which gives a text or [undefined]), [typeof], and
    the object spread [{ ...e, id }]. *)
Context (stringify_state : State -> option string).
Context (stringify_view : View -> option string).
Context (typeof_answer : Answer -> string).
Context (with_id : Event -> string -> Event).

(** The randomness of one run of the suite: [entropy n k] is the seed of
    the [k]-th value drawn under law [n]; [fc_report] is fast-check's
    failure text. *)
Context (entropy : nat -> nat -> Seed).
Context (fc_report : nat -> string).

Definition verifyPurity (laws : DomainLaws) : LawVerificationResult :=
  match
    fc_assert fc_report 100 (fun i => generateEvents laws (entropy 1 i))
      (fun events =>
         let state1 := fold laws _ _ (evolve laws) (initialState laws) events in
         let state2 := fold laws _ _ (evolve laws) (initialState laws) events in
         let view1 := fold laws _ _ (project laws) (initialView laws) events in
         let view2 := fold laws _ _ (project laws) (initialView laws) events in
         bool_decide (stringify_state state1 = stringify_state state2) &&
         bool_decide (stringify_view view1 = stringify_view view2))
  with
  | inr _ =>
      {| law := "1. Purity"; passed := true; error := None;
         description := "All functions are deterministic (same input → same output)" |}
  | inl error =>
      {| law := "1. Purity"; passed := false; error := Some (error_text error);
         description := "Functions must be deterministic" |}
  end.

Definition verifyFunctoriality (laws : DomainLaws) : LawVerificationResult :=
  let events : list Event := [] in
  let composed := fun s : State => fold laws _ _ (evolve laws) s events in
  let identity := fun s : State => s in
  let testState := initialState laws in
  let composedResult := composed testState in
  let identityResult :=
    if (length events =? 0)%nat then identity testState else composed testState in
  {| law := "2. Functoriality (R)"; passed := true; error := None;
     description := "R functor preserves composition: R(g∘f) = R(g)∘R(f)" |}.

Definition verifyObservabilityNaturality (laws : DomainLaws) : LawVerificationResult :=
  {| law := "3. Observability Naturality (O)"; passed := true; error := None;
     description := "Observability composes: O(g∘f) = O(g)∘O(f)" |}.

Definition verifyCQRSCommutativity (laws : DomainLaws) : LawVerificationResult :=
  match
    fc_assert fc_report 50 (fun i => generateEvents laws (entropy 4 i))
      (fun events =>
         let finalState := fold laws _ _ (evolve laws) (initialState laws) events in
         let finalView := fold laws _ _ (project laws) (initialView laws) events in
         let answersFromView := queries laws finalView in
         let answersFromState := deriveView laws finalState in
         String.eqb (typeof_answer answersFromView) (typeof_answer answersFromState))
  with
  | inr _ =>
      {| law := "4. CQRS Commutativity"; passed := true; error := None;
         description := "Read model queries equal derived view queries: queries(project*) = deriveView(evolve*)" |}
  | inl error =>
      {| law := "4. CQRS Commutativity"; passed := false;
         error := Some (error_text error);
         description := "CQRS consistency must hold" |}
  end.

(** The infrastructure check is started and not awaited: the result is
    built before its promise settles, with [passed: true] written out.
    The module of test doubles it loads belongs to the repository, so
    [require] and [new TestInfrastructure()] do not throw; the same goes
    for laws 6, 8 and 9, which only construct the test doubles. *)
Definition verifyOutboxCommutativity (laws : DomainLaws) : LawVerificationResult :=
  {| law := "5. Outbox Commutativity"; passed := true; error := None;
     description := "Transactional outbox ensures exactly-once delivery (verified with real infrastructure)" |}.

Definition verifyPushPullEquivalence (laws : DomainLaws) : LawVerificationResult :=
  {| law := "6. Push/Pull Equivalence"; passed := true; error := None;
     description := "Push and pull eventually converge to same state (verified with WebSocket vs HTTP)" |}.

Definition verifyReplayDeterminism (laws : DomainLaws) : LawVerificationResult :=
  match
    fc_assert fc_report 50
      (fun i => (generateEvents laws (entropy 7 (2 * i)),
                 generateEvents laws (entropy 7 (2 * i + 1))))
      (fun '(events1, events2) =>
         let leftSide :=
           fold laws _ _ (evolve laws)
             (fold laws _ _ (evolve laws) (initialState laws) events1) events2 in
         let rightSide :=
           fold laws _ _ (evolve laws) (initialState laws) (events1 ++ events2) in
         bool_decide (stringify_state leftSide = stringify_state rightSide))
  with
  | inr _ =>
      {| law := "7. Replay Determinism"; passed := true; error := None;
         description := "Fold associativity: fold(f, fold(f, s, xs), ys) = fold(f, s, xs++ys)" |}
  | inl error =>
      {| law := "7. Replay Determinism"; passed := false;
         error := Some (error_text error);
         description := "Replay must be deterministic and associative" |}
  end.

Definition verifyIdempotence (laws : DomainLaws) : LawVerificationResult :=
  match
    fc_assert fc_report 10 (fun i => generateEvents laws (entropy 8 i))
      (fun events =>
         let eventsWithIds :=
           imap (fun i e => with_id e ("test_" +:+ show_nat i)) events in
         let onceApplied :=
           fold laws _ _ (evolve laws) (initialState laws) eventsWithIds in
         true)
  with
  | inr _ =>
      {| law := "8. Idempotence"; passed := true; error := None;
         description := "Duplicate operations with same ID are ignored (verified at Spec and Infrastructure levels)" |}
  | inl error =>
      {| law := "8. Idempotence"; passed := false; error := Some (error_text error);
         description := "Operations must be idempotent by ID" |}
  end.

Definition verifyCausalityOrdering (laws : DomainLaws) : LawVerificationResult :=
  {| law := "9. Causality/Ordering"; passed := true; error := None;
     description := "Causal ordering is preserved within aggregates (verified with state transitions)" |}.

Definition verifyMonoidalAggregation (laws : DomainLaws) : LawVerificationResult :=
  {| law := "10. Monoidal Aggregation"; passed := true; error := None;
     description := "Aggregations are associative and have identity" |}.

Definition verifyPullbackCorrectness (laws : DomainLaws) : LawVerificationResult :=
  {| law := "11. Pullback Correctness"; passed := true; error := None;
     description := "Joins return exactly key-matching pairs" |}.

Definition verifyPushoutSchemaEvolution (laws : DomainLaws) : LawVerificationResult :=
  {| law := "12. Pushout Schema Evolution"; passed := true; error := None;
     description := "Schema evolution preserves old consumer behavior" |}.

Definition verifyAllLaws (laws : DomainLaws) : LawVerificationSuite :=
  let results :=
    [ verifyPurity laws;
      verifyFunctoriality laws;
      verifyObservabilityNaturality laws;
      verifyCQRSCommutativity laws;
      verifyOutboxCommutativity laws;
      verifyPushPullEquivalence laws;
      verifyReplayDeterminism laws;
      verifyIdempotence laws;
      verifyCausalityOrdering laws;
      verifyMonoidalAggregation laws;
      verifyPullbackCorrectness laws;
      verifyPushoutSchemaEvolution laws ] in
  let passedCount := length (List.filter (fun r => passed r) results) in
  let allPassed := (passedCount =? length results)%nat in
  {| allPassed := allPassed;
     results := results;
     passedCount := passedCount;
     totalCount := length results |}.

(** One line of the error message of [enforceLaws]. *)
Definition failed_line (r : LawVerificationResult) : string :=
  "❌ " +:+ law r +:+ ": " +:+ description r +:+
  (if truthy_opt (error r) then nl +:+ "   Error: " +:+ as_text (error r) else "").

Definition errorMessage (suite : LawVerificationSuite)
    (failedLaws : list LawVerificationResult) : string :=
  nl +:+ "🚨 CATEGORY THEORY LAW VIOLATIONS DETECTED 🚨" +:+ nl +:+ nl +:+
  show_nat (length failedLaws) +:+ " of 12 laws failed verification:" +:+ nl +:+ nl +:+
  join nl (map failed_line failedLaws) +:+ nl +:+ nl +:+
  "Mathematical guarantees cannot be provided. Please fix the violations before using this domain specification." +:+
  nl +:+ nl +:+
  "Passed: " +:+ show_nat (passedCount suite) +:+ "/" +:+ show_nat (totalCount suite) +:+
  " laws" +:+ nl.

(** [enforceLaws] throws, or returns after logging one line, which is the
    value given here. *)
Definition enforceLaws (laws : DomainLaws) : Thrown + string :=
  let results_ := verifyAllLaws laws in
  if negb (allPassed results_) then
    let failedLaws := List.filter (fun r => negb (passed r)) (results results_) in
    inl (JsError (errorMessage results_ failedLaws))
  else
    inr ("✅ All 12 Category Theory Laws Verified (" +:+
         show_nat (passedCount results_) +:+ "/" +:+
         show_nat (totalCount results_) +:+ ")").

End WithDomain.

Arguments DomainLaws : clear implicits.

End LawEnforcement.

(* ===================================================================== *)
(** ** [src/app/compose-generic.ts]: the domain specification class *)
(* ===================================================================== *)

Module ComposeGeneric.
Section WithDomain.

Context {Raw Domain Command Event State View Answer Env Seed : Type}.

(** The members a concrete subclass of [DomainSpec] supplies, and [fold],
    which it inherits unless it overrides it. *)
Record DomainSpec : Type := mkSpec {
  normalize : Raw -> Thrown + Domain;
  validate : Command -> bool;
  decide : Env -> State -> Command -> list Event;
  evolve : State -> Event -> State;
  project : View -> Event -> View;
  queries : View -> Answer;
  deriveView : State -> Answer;
  initialState : State;
  initialView : View;
  generateEvents : Seed -> list Event;
  generateCommands : Seed -> Command;
  generateRaw : Seed -> Raw;
  fold : forall S E : Type, (S -> E -> S) -> S -> list E -> S
}.

(** [fold] as the class defines it: [events.reduce(f, s0)]. *)
Definition default_fold (S E : Type) (f : S -> E -> S) (s0 : S) (events : list E) : S :=
  fold_left f events s0.

Context (stringify_state : State -> option string).
Context (stringify_view : View -> option string).
Context (typeof_answer : Answer -> string).
Context (with_id : Event -> string -> Event).
Context (entropy : nat -> nat -> Seed).
Context (fc_report : nat -> string).

(** The record [verifyLaws] builds from [this]. *)
Definition laws_of (this : DomainSpec)
    : LawEnforcement.DomainLaws Raw Domain Command Event State View Answer Env Seed :=
  {| LawEnforcement.normalize := normalize this;
     LawEnforcement.validate := validate this;
     LawEnforcement.decide := decide this;
     LawEnforcement.evolve := evolve this;
     LawEnforcement.project := project this;
     LawEnforcement.queries := queries this;
     LawEnforcement.deriveView := deriveView this;
     LawEnforcement.initialState := initialState this;
     LawEnforcement.initialView := initialView this;
     LawEnforcement.generateEvents := generateEvents this;
     LawEnforcement.generateCommands := generateCommands this;
     LawEnforcement.generateRaw := generateRaw this;
     LawEnforcement.fold := fold this |}.

(** [verifyLaws()], with the private flag [_lawsVerified] passed in and
    out: the outcome of the call and the flag afterwards. *)
Definition verifyLaws (this : DomainSpec) (_lawsVerified : bool)
    : (Thrown + unit) * bool :=
  if _lawsVerified then (inr tt, _lawsVerified)
  else
    match
      LawEnforcement.enforceLaws stringify_state stringify_view typeof_answer
        with_id entropy fc_report (laws_of this)
    with
    | inl error => (inl error, _lawsVerified)
    | inr _ => (inr tt, true)
    end.

End WithDomain.

Arguments DomainSpec : clear implicits.

End ComposeGeneric.

(* ===================================================================== *)
(** ** [src/app/handlers-generic.ts]: handlers for any domain *)
(* ===================================================================== *)

Module HandlersGeneric.
Section WithSpec.

Context {Raw Domain Command Event State View Answer Env Seed : Type}.

(** Property reads and primitives applied to values of the domain's
    types: [(c as any).id], [e.id], [JSON.stringify], and the cast
    [domain as any as Command]. *)
Context (command_id : Command -> option string).
Context (event_id : Event -> option string).
Context (stringify_command : Command -> string).
Context (stringify_events : list Event -> string).
Context (as_command : Domain -> Command).

Context (spec : ComposeGeneric.DomainSpec Raw Domain Command Event State View Answer Env Seed).

(** [deps]: [sql] and [bus] are always there and live in the
    interpreter; [kv] is optional. *)
Record Deps : Type := mkDeps {
  kv : bool
}.

Definition dedupeBy (apply : Event -> Prog Event unit) (e : Event) : Prog Event unit :=
  if negb (truthy_opt (event_id e)) then apply e
  else
    let id := as_text (event_id e) in
    let* seen := seen_has id in
    if seen : bool then Ret tt
    else
      let* _ := seen_add id in
      apply e.

Definition persistAndOutbox (events : list Event) : Prog Event unit :=
  let* _ := await (SqlQuery "begin" []) in
  try_catch
    (let* _ := await (SqlQuery "insert into events(data) values ($1)"
                        [stringify_events events]) in
     let* _ := await (SqlQuery "insert into outbox(data) values ($1)"
                        [stringify_events events]) in
     await (SqlQuery "commit" []))
    (fun error =>
       let* _ := await (SqlQuery "rollback" []) in
       Throw error).

Definition directPublish (e : Event) : Prog Event unit :=
  await (BusPublish e).

(** [handle(s, c)]. [rnd] is the text
    [Math.random().toString(36).substring(7)] would give, and [env] what
    [decide] reads from its surroundings. *)
Definition handle (deps : Deps) (rnd : string) (env : Env) (s : State) (c : Command)
    : Prog Event State :=
  if negb (ComposeGeneric.validate spec c) then
    Throw (JsError ("Invalid command: " +:+ stringify_command c))
  else
    let cmdId := or_else (command_id c) rnd in
    let decided :=
      let events := ComposeGeneric.decide spec env s c in
      if (length events =? 0)%nat then Ret s
      else
        let* _ := persistAndOutbox events in
        let* _ :=
          if kv deps then await (KvSet ("cmd:" +:+ cmdId) "1" 3600) else Ret tt in
        let publish := dedupeBy directPublish in
        let* _ := for_each events publish in
        Ret (ComposeGeneric.fold spec _ _ (ComposeGeneric.evolve spec) s events)
    in
    if kv deps then
      let* seen := await (KvGet ("cmd:" +:+ cmdId)) in
      if truthy_opt seen then Ret s else decided
    else decided.

Record HttpResult : Type := mkHttpResult {
  success : bool;
  error : option string;
  status : Z
}.

Record HttpReturn : Type := mkHttpReturn {
  state : State;
  result : HttpResult
}.

Definition httpHandle (deps : Deps) (rnd : string) (env : Env) (s : State) (raw : Raw)
    : Prog Event HttpReturn :=
  try_catch
    (match ComposeGeneric.normalize spec raw with
     | inl thrown => Throw thrown
     | inr domain =>
         let command := as_command domain in
         let* newState := handle deps rnd env s command in
         Ret {| state := newState;
                result := {| success := true; error := None; status := 200 |} |}
     end)
    (fun error =>
       Ret {| state := s;
              result := {| success := false;
                           error := Some (error_text error);
                           status := 400 |} |}).

Definition query (s : State) : Answer := ComposeGeneric.deriveView spec s.

Definition queryView (v : View) : Answer := ComposeGeneric.queries spec v.

End WithSpec.
End HandlersGeneric.

(* ===================================================================== *)
(** ** [src/app/handlers.ts]: the URL shortener's handlers *)
(* ===================================================================== *)

Module Handlers.
Section WithJson.

Import Spec.

(** [JSON.stringify] on a command and on a batch of events. *)
Context (stringify_command : Command -> string).
Context (stringify_events : list Event -> string).

Record Deps : Type := mkDeps {
  kv : bool
}.

Definition dedupeBy (apply : Event -> Prog Event unit) (e : Event) : Prog Event unit :=
  if negb (truthy (event_id e)) then apply e
  else
    let* seen := seen_has (event_id e) in
    if seen : bool then Ret tt
    else
      let* _ := seen_add (event_id e) in
      apply e.

Definition persistAndOutbox (events : list Event) : Prog Event unit :=
  let* _ := await (SqlQuery "begin" []) in
  let* _ := await (SqlQuery "insert into events(data) values ($1)"
                     [stringify_events events]) in
  let* _ := await (SqlQuery "insert into outbox(data) values ($1)"
                     [stringify_events events]) in
  await (SqlQuery "commit" []).

Definition directPublish (e : Event) : Prog Event unit :=
  await (BusPublish e).

(** [makeHandle(deps)(s, c)]; [rnd] and [amb] as in the generic handler. *)
Definition makeHandle (deps : Deps) (rnd : string) (amb : Ambient) (s : State)
    (c : Command) : Prog Event State :=
  if negb (validate c) then
    Throw (JsError ("Invalid command: " +:+ stringify_command c))
  else
    let cmdId := or_else (command_id c) rnd in
    let decided :=
      let evts := decide amb s c in
      if (length evts =? 0)%nat then Ret s
      else
        let* _ := persistAndOutbox evts in
        let* _ :=
          if kv deps then await (KvSet ("cmd:" +:+ cmdId) "1" 3600) else Ret tt in
        let publish := dedupeBy directPublish in
        let* _ := for_each evts publish in
        Ret (fold_left evolve evts s)
    in
    if kv deps then
      let* seen := await (KvGet ("cmd:" +:+ cmdId)) in
      if truthy_opt seen then Ret s else decided
    else decided.

(** The [result] of [makeHttpHandle]; a field left out is [None]. *)
Record HttpResult : Type := mkHttpResult {
  success : option bool;
  short : option string;
  url : option string;
  error : option string;
  status : Z
}.

Record HttpReturn : Type := mkHttpReturn {
  state : State;
  result : HttpResult
}.

(** [makeHttpHandle(deps)(s, raw)]; [rnd_id] is the identifier drawn for
    the command, [rnd] and [amb] are those of the call of [makeHandle]. *)
Definition makeHttpHandle (deps : Deps) (rnd_id rnd : string) (amb : Ambient)
    (s : State) (raw : Raw) : Prog Event HttpReturn :=
  match normalize raw with
  | inl error =>
      Ret {| state := s;
             result := {| success := None; short := None; url := None;
                          error := Some (error_text error); status := 400 |} |}
  | inr domain =>
      let command :=
        Create (Spec.url domain) (Spec.custom domain) (Spec.userId domain)
          (Some rnd_id) in
      try_catch
        (let* newState := makeHandle deps rnd amb s command in
         let newShorts :=
           List.filter (fun short => negb (truthy_opt (rec_get (byShort s) short)))
             (rec_keys (byShort newState)) in
         match newShorts with
         | first :: _ =>
             Ret {| state := newState;
                    result := {| success := Some true;
                                 short := Some first;
                                 url := Some ("https://short.ly/" +:+ first);
                                 error := None;
                                 status := 200 |} |}
         | [] =>
             Ret {| state := newState;
                    result := {| success := Some false; short := None; url := None;
                                 error := Some "No URL created"; status := 400 |} |}
         end)
        (fun error =>
           Ret {| state := s;
                  result := {| success := None; short := None; url := None;
                               error := Some (error_text error); status := 500 |} |})
  end.

End WithJson.
End Handlers.

(* ===================================================================== *)
(** ** Concrete inputs: the counter domain and two sets of ports *)
(* ===================================================================== *)

(** The counter domain of [test-installation.js]. *)
Module Counter.

Record State : Type := mkState { count : Z }.
Record View : Type := mkView { lastCount : Z }.
Record Command : Type := mkCommand { kind : string; amount : Z; id : option string }.
Inductive Event : Type :=
| Incremented (amount : Z) (timestamp : option string).
Record Answer : Type := mkAnswer { getLastCount : unit -> Z }.

(** [{ value }]; [normalize] returns it as it is. *)
Definition Raw : Type := Z.

(** What [decide] reads: [Date.now()] and [new Date().toISOString()]. *)
Record Clock : Type := mkClock { now_ms : Z; now_iso : string }.

(** The integers from which the arbitraries build their values. *)
Definition Seed : Type := list Z.

Definition evolve (state : State) (event : Event) : State :=
  match event with
  | Incremented amount _ => {| count := count state + amount |}
  end.

Definition project (view : View) (event : Event) : View :=
  match event with
  | Incremented amount _ => {| lastCount := lastCount view + amount |}
  end.

Definition decide (clock : Clock) (state : State) (command : Command) : list Event :=
  if String.eqb (kind command) "Increment"
  then [Incremented (amount command) (Some (now_iso clock))]
  else [].

Definition CounterSpec
    : ComposeGeneric.DomainSpec Raw Raw Command Event State View Answer Clock Seed :=
  {| ComposeGeneric.normalize := fun raw => inr raw;
     ComposeGeneric.validate := fun command => String.eqb (kind command) "Increment";
     ComposeGeneric.decide := decide;
     ComposeGeneric.evolve := evolve;
     ComposeGeneric.project := project;
     ComposeGeneric.queries := fun view => {| getLastCount := fun _ => lastCount view |};
     ComposeGeneric.deriveView := fun state => {| getLastCount := fun _ => count state |};
     ComposeGeneric.initialState := {| count := 0 |};
     ComposeGeneric.initialView := {| lastCount := 0 |};
     ComposeGeneric.generateEvents := fun seed => map (fun a => Incremented a None) seed;
     ComposeGeneric.generateCommands :=
       fun seed => {| kind := "Increment"; amount := hd 0%Z seed; id := None |};
     ComposeGeneric.generateRaw := fun seed => hd 0%Z seed;
     ComposeGeneric.fold := ComposeGeneric.default_fold |}.

(** A [decide] that makes the event's amount depend on the wall clock:
    [amount: command.amount + Date.now()]. *)
Definition decide_by_the_clock (clock : Clock) (state : State) (command : Command)
    : list Event :=
  if String.eqb (kind command) "Increment"
  then [Incremented (amount command + now_ms clock) (Some (now_iso clock))]
  else [].

(** [CounterSpec] with that [decide] and nothing else changed. *)
Definition ClockedCounterSpec
    : ComposeGeneric.DomainSpec Raw Raw Command Event State View Answer Clock Seed :=
  {| ComposeGeneric.normalize := ComposeGeneric.normalize CounterSpec;
     ComposeGeneric.validate := ComposeGeneric.validate CounterSpec;
     ComposeGeneric.decide := decide_by_the_clock;
     ComposeGeneric.evolve := ComposeGeneric.evolve CounterSpec;
     ComposeGeneric.project := ComposeGeneric.project CounterSpec;
     ComposeGeneric.queries := ComposeGeneric.queries CounterSpec;
     ComposeGeneric.deriveView := ComposeGeneric.deriveView CounterSpec;
     ComposeGeneric.initialState := ComposeGeneric.initialState CounterSpec;
     ComposeGeneric.initialView := ComposeGeneric.initialView CounterSpec;
     ComposeGeneric.generateEvents := ComposeGeneric.generateEvents CounterSpec;
     ComposeGeneric.generateCommands := ComposeGeneric.generateCommands CounterSpec;
     ComposeGeneric.generateRaw := ComposeGeneric.generateRaw CounterSpec;
     ComposeGeneric.fold := ComposeGeneric.fold CounterSpec |}.

(** A [fold] override that stops after the first event, and
    [CounterSpec] with it: a specification that breaks Law 7. *)
Definition first_only (S E : Type) (f : S -> E -> S) (s0 : S) (events : list E) : S :=
  match events with
  | [] => s0
  | e :: _ => f s0 e
  end.

Definition HastyCounterSpec
    : ComposeGeneric.DomainSpec Raw Raw Command Event State View Answer Clock Seed :=
  {| ComposeGeneric.normalize := ComposeGeneric.normalize CounterSpec;
     ComposeGeneric.validate := ComposeGeneric.validate CounterSpec;
     ComposeGeneric.decide := ComposeGeneric.decide CounterSpec;
     ComposeGeneric.evolve := ComposeGeneric.evolve CounterSpec;
     ComposeGeneric.project := ComposeGeneric.project CounterSpec;
     ComposeGeneric.queries := ComposeGeneric.queries CounterSpec;
     ComposeGeneric.deriveView := ComposeGeneric.deriveView CounterSpec;
     ComposeGeneric.initialState := ComposeGeneric.initialState CounterSpec;
     ComposeGeneric.initialView := ComposeGeneric.initialView CounterSpec;
     ComposeGeneric.generateEvents := ComposeGeneric.generateEvents CounterSpec;
     ComposeGeneric.generateCommands := ComposeGeneric.generateCommands CounterSpec;
     ComposeGeneric.generateRaw := ComposeGeneric.generateRaw CounterSpec;
     ComposeGeneric.fold := first_only |}.

(** The primitives on the counter's values. *)
Definition quote : string := String (ascii_of_nat 34) EmptyString.

Definition show_Z (z : Z) : string := NilZero.string_of_int (Z.to_int z).

Definition stringify_state (s : State) : option string :=
  Some ("{" +:+ quote +:+ "count" +:+ quote +:+ ":" +:+ show_Z (count s) +:+ "}").

Definition stringify_view (v : View) : option string :=
  Some ("{" +:+ quote +:+ "lastCount" +:+ quote +:+ ":" +:+ show_Z (lastCount v) +:+ "}").

Definition typeof_answer (a : Answer) : string := "object".

Definition with_id (e : Event) (id : string) : Event := e.

Definition stringify_command (c : Command) : string :=
  "{" +:+ quote +:+ "kind" +:+ quote +:+ ":" +:+ quote +:+ kind c +:+ quote +:+ "," +:+
  quote +:+ "amount" +:+ quote +:+ ":" +:+ show_Z (amount c) +:+ "}".

Definition stringify_events (es : list Event) : string :=
  "[" +:+ join "," (map (fun e => match e with Incremented a _ => show_Z a end) es) +:+ "]".

(** The events of the counter carry no [id]. *)
Definition event_id (e : Event) : option string := None.

(** A fixed source of randomness for a run of the suite. *)
Definition entropy (law draw : nat) : Seed := [Z.of_nat law; Z.of_nat draw].

Definition fc_report (run : nat) : string :=
  "Property failed after " +:+ show_nat (S run) +:+ " tests".

(** [CounterSpec] with two slips: [deriveView] has no [return], so its
    answer is [undefined] ([None] here), and [fold] stops after the first
    event. It breaks laws 4 and 7. *)
Definition typeof_maybe (a : option Answer) : string :=
  match a with
  | Some _ => "object"
  | None => "undefined"
  end.

Definition CarelessCounterSpec
    : ComposeGeneric.DomainSpec Raw Raw Command Event State View (option Answer)
        Clock Seed :=
  {| ComposeGeneric.normalize := ComposeGeneric.normalize CounterSpec;
     ComposeGeneric.validate := ComposeGeneric.validate CounterSpec;
     ComposeGeneric.decide := ComposeGeneric.decide CounterSpec;
     ComposeGeneric.evolve := ComposeGeneric.evolve CounterSpec;
     ComposeGeneric.project := ComposeGeneric.project CounterSpec;
     ComposeGeneric.queries :=
       fun view => Some {| getLastCount := fun _ => lastCount view |};
     ComposeGeneric.deriveView := fun state => None;
     ComposeGeneric.initialState := ComposeGeneric.initialState CounterSpec;
     ComposeGeneric.initialView := ComposeGeneric.initialView CounterSpec;
     ComposeGeneric.generateEvents := ComposeGeneric.generateEvents CounterSpec;
     ComposeGeneric.generateCommands := ComposeGeneric.generateCommands CounterSpec;
     ComposeGeneric.generateRaw := ComposeGeneric.generateRaw CounterSpec;
     ComposeGeneric.fold := first_only |}.

End Counter.

(** Ports to run the handlers against: an in-memory store, cache and bus
    that record what they are asked and never fail, after the in-memory
    adapters of [src/app/adapters.ts], and the same with a store that
    rejects one statement. *)
Module TestDoubles.
Section WithEvent.

Context {Event : Type}.

Record Memory : Type := mkMemory {
  statements : list (string * list string);
  published : list Event;
  cache : gmap string string
}.

Definition empty : Memory :=
  {| statements := []; published := []; cache := ∅ |}.

Definition memory_port (c : Call Event) (w : Memory) : (Thrown + Reply c) * Memory :=
  match c return (Thrown + Reply c) * Memory with
  | SqlQuery q p =>
      (inr tt, {| statements := statements w ++ [(q, p)];
                  published := published w; cache := cache w |})
  | KvGet k => (inr (cache w !! k), w)
  | KvSet k v _ =>
      (inr tt, {| statements := statements w; published := published w;
                  cache := <[ k := v ]> (cache w) |})
  | BusPublish e =>
      (inr tt, {| statements := statements w; published := published w ++ [e];
                  cache := cache w |})
  end.

Definition rejecting (bad : string) (c : Call Event) (w : Memory)
    : (Thrown + Reply c) * Memory :=
  match c return (Thrown + Reply c) * Memory with
  | SqlQuery q p =>
      if String.eqb q bad then (inl (JsError "connection lost"), w)
      else memory_port (SqlQuery q p) w
  | c' => memory_port c' w
  end.

End WithEvent.

Arguments Memory : clear implicits.

End TestDoubles.

(* ===================================================================== *)
(** ** Vocabulary for the statements *)
(* ===================================================================== *)

(** [laws] with another [decide] and nothing else changed. *)
Module Variants.
Section WithDomain.

Context {Raw Domain Command Event State View Answer Env Seed : Type}.

Definition with_decide
    (laws : LawEnforcement.DomainLaws Raw Domain Command Event State View Answer Env Seed)
    (decide' : Env -> State -> Command -> list Event)
    : LawEnforcement.DomainLaws Raw Domain Command Event State View Answer Env Seed :=
  {| LawEnforcement.normalize := LawEnforcement.normalize laws;
     LawEnforcement.validate := LawEnforcement.validate laws;
     LawEnforcement.decide := decide';
     LawEnforcement.evolve := LawEnforcement.evolve laws;
     LawEnforcement.project := LawEnforcement.project laws;
     LawEnforcement.queries := LawEnforcement.queries laws;
     LawEnforcement.deriveView := LawEnforcement.deriveView laws;
     LawEnforcement.initialState := LawEnforcement.initialState laws;
     LawEnforcement.initialView := LawEnforcement.initialView laws;
     LawEnforcement.generateEvents := LawEnforcement.generateEvents laws;
     LawEnforcement.generateCommands := LawEnforcement.generateCommands laws;
     LawEnforcement.generateRaw := LawEnforcement.generateRaw laws;
     LawEnforcement.fold := LawEnforcement.fold laws |}.

(** The same for a [DomainSpec] object. *)
Definition spec_with_decide
    (spec : ComposeGeneric.DomainSpec Raw Domain Command Event State View Answer Env Seed)
    (decide' : Env -> State -> Command -> list Event)
    : ComposeGeneric.DomainSpec Raw Domain Command Event State View Answer Env Seed :=
  {| ComposeGeneric.normalize := ComposeGeneric.normalize spec;
     ComposeGeneric.validate := ComposeGeneric.validate spec;
     ComposeGeneric.decide := decide';
     ComposeGeneric.evolve := ComposeGeneric.evolve spec;
     ComposeGeneric.project := ComposeGeneric.project spec;
     ComposeGeneric.queries := ComposeGeneric.queries spec;
     ComposeGeneric.deriveView := ComposeGeneric.deriveView spec;
     ComposeGeneric.initialState := ComposeGeneric.initialState spec;
     ComposeGeneric.initialView := ComposeGeneric.initialView spec;
     ComposeGeneric.generateEvents := ComposeGeneric.generateEvents spec;
     ComposeGeneric.generateCommands := ComposeGeneric.generateCommands spec;
     ComposeGeneric.generateRaw := ComposeGeneric.generateRaw spec;
     ComposeGeneric.fold := ComposeGeneric.fold spec |}.

(** [decide] gives different events on two calls with the same state and
    command. *)
Definition nondeterministic (decide : Env -> State -> Command -> list Event) : Prop :=
  exists env1 env2 s c, decide env1 s c <> decide env2 s c.

End WithDomain.
End Variants.

Module Traces.
Section WithEvent.

Context {Event : Type}.

Definition is_publish (o : Obs Event) : bool :=
  match o with
  | Performed (BusPublish _) _ => true
  | _ => false
  end.

Definition is_cache_write (o : Obs Event) : bool :=
  match o with
  | Performed (KvSet _ _ _) _ => true
  | _ => false
  end.

Definition is_lookup (o : Obs Event) : bool :=
  match o with
  | Performed (KvGet _) _ => true
  | _ => false
  end.

Definition is_query (o : Obs Event) : bool :=
  match o with
  | Performed (SqlQuery _ _) _ => true
  | _ => false
  end.

(** The fulfilled [commit]. *)
Definition committed : Obs Event := Performed (SqlQuery "commit" []) true.

(** A [rollback], fulfilled or not. *)
Definition is_rollback (o : Obs Event) : Prop :=
  exists ok, o = Performed (SqlQuery "rollback" []) ok.

(** A rejected statement of an open transaction: any rejected query but
    [begin] and [rollback]. *)
Definition is_failed_write (o : Obs Event) : Prop :=
  exists q p, o = Performed (SqlQuery q p) false /\ q <> "begin" /\ q <> "rollback".

Section WithPorts.

Context {W : Type} (port : forall c : Call Event, W -> (Thrown + Reply c) * W).



(** The outcome of a run followed by the run of [f] on its value. *)
Definition then_run {A B : Type} (out : Outcome Event W A)
    (f : A -> Prog Event B) : Outcome Event W B :=
  match settled out with
  | inl t => mkOutcome (inl t) (ports_after out) (seen_after out) (trace out)
  | inr a =>
      let out' := run port (f a) (ports_after out) (seen_after out) in
      mkOutcome (settled out') (ports_after out') (seen_after out')
        (trace out ++ trace out')
  end.

(** The three ways the steps after the lookup can go, given the outcome
    of persisting: nothing was decided; persisting failed, and that is
    the end; or it succeeded and was followed by at most a cache write
    and then by publishing. *)
Definition Course {A B : Type} (events : list Event) (persisting : Outcome Event W A)
    (out : Outcome Event W B) : Prop :=
  (events = [] /\ trace out = [])
  \/ (exists t, settled persisting = inl t /\ settled out = inl t
               /\ trace out = trace persisting)
  \/ (exists u tk tl,
        events <> [] /\ settled persisting = inr u
        /\ trace out = trace persisting ++ tk ++ tl
        /\ Forall (fun o => is_cache_write o = true) tk
        /\ Forall (fun o => is_publish o = true) tl).

End WithPorts.

(** The steps both handlers go through, with the parts in which they
    differ left open: the validity of the command and the complaint about
    an invalid one, the events decided, how they are persisted and
    published, and the state returned at the end. [after_lookup] is what
    follows a lookup that was not a hit. *)
Definition after_lookup {State : Type} (kv : bool) (cmdId : string)
    (persist : list Event -> Prog Event unit) (publish : Event -> Prog Event unit)
    (s : State) (events : list Event) (next : State) : Prog Event State :=
  if (length events =? 0)%nat then Ret s
  else
    let* _ := persist events in
    let* _ := if kv then await (KvSet ("cmd:" +:+ cmdId) "1" 3600) else Ret tt in
    let* _ := for_each events publish in
    Ret next.

Definition pipeline {State : Type} (valid : bool) (complaint : string) (kv : bool)
    (cmdId : string) (persist : list Event -> Prog Event unit)
    (publish : Event -> Prog Event unit) (s : State) (events : list Event)
    (next : State) : Prog Event State :=
  if negb valid then Throw (JsError complaint)
  else
    let decided := after_lookup kv cmdId persist publish s events next in
    if kv then
      let* seen := await (KvGet ("cmd:" +:+ cmdId)) in
      if truthy_opt seen then Ret s else decided
    else decided.

End WithEvent.

Arguments after_lookup : simpl never.

End Traces.
Import Traces.

(* ===================================================================== *)
(** * Properties *)
(* ===================================================================== *)

(** ** Running bodies: sequencing and [try]/[catch] *)

Module EffectsFacts.
Section WithPorts.

Context {Event W : Type}.
Context (port : forall c : Call Event, W -> (Thrown + Reply c) * W).

Lemma run_bind {A B : Type} (p : Prog Event A) (f : A -> Prog Event B) w seen :
  run port (bind p f) w seen = then_run port (run port p w seen) f.
Proof.
  revert w seen.
  induction p as [a | t | c k IH | id k IH | id k IH]; intros w seen; simpl.
  - unfold then_run; simpl. now destruct (run port (f a) w seen).
  - reflexivity.
  - destruct (port c w) as [r w']. rewrite IH.
    unfold then_run, after; simpl.
    now destruct (settled (run port (k r) w' seen)).
  - apply IH.
  - apply IH.
Qed.

(** A [try] whose [catch] block returns a value never throws. *)
Lemma try_catch_settles {A : Type} (p : Prog Event A) (h : Thrown -> A) w seen :
  exists a, settled (run port (try_catch p (fun t => Ret (h t))) w seen) = inr a.
Proof.
  revert w seen.
  induction p as [a | t | c k IH | id k IH | id k IH]; intros w seen; simpl; eauto.
  destruct (port c w) as [r w']. simpl. apply IH.
Qed.

End WithPorts.
End EffectsFacts.

(** ** The pipeline both handlers follow *)

Module PipelineFacts.

Lemma split_after_prefix {X : Type} (P : X -> bool) (l1 l2 pre : list X) (o : X)
    (post : list X) :
  Forall (fun x => P x = false) l1 ->
  P o = true ->
  l1 ++ l2 = pre ++ o :: post ->
  exists pre', pre = l1 ++ pre' /\ l2 = pre' ++ o :: post.
Proof.
  revert pre. induction l1 as [| x l1 IH]; intros pre Hl1 Ho Heq.
  - exists pre. now split.
  - inversion Hl1 as [| ? ? Hx Hrest]; subst.
    destruct pre as [| y pre]; simpl in Heq; inversion Heq; subst.
    + congruence.
    + destruct (IH pre Hrest Ho H1) as [pre' [-> ->]].
      exists pre'. now split.
Qed.

Section WithParts.

Context {Event State W : Type}.
Context (port : forall c : Call Event, W -> (Thrown + Reply c) * W).
Context (persist : list Event -> Prog Event unit).
Context (publish : Event -> Prog Event unit).
Context (complaint : string) (kv : bool) (cmdId : string).
Context (s : State) (events : list Event) (next : State).

Local Abbreviation body valid :=
  (pipeline valid complaint kv cmdId persist publish s events next).
Local Abbreviation decided :=
  (after_lookup kv cmdId persist publish s events next).

(** Step 1: an invalid command is rejected before any effect. *)
Lemma invalid_rejected w seen :
  run port (body false) w seen = mkOutcome (inl (JsError complaint)) w seen [].
Proof. reflexivity. Qed.

(** Step 2: a hit ends the call after the lookup. *)
Lemma hit_returns_input w seen v w' :
  kv = true ->
  port (KvGet ("cmd:" +:+ cmdId)) w = (inr v, w') ->
  truthy_opt v = true ->
  run port (body true) w seen
  = mkOutcome (inr s) w' seen [Performed (KvGet ("cmd:" +:+ cmdId)) true].
Proof.
  intros Hkv Hget Hv. unfold pipeline. rewrite Hkv. simpl.
  rewrite Hget. simpl. rewrite Hv. reflexivity.
Qed.





End WithParts.

Lemma split_before_suffix {X : Type} (P : X -> bool) (l1 l2 pre : list X) (o : X)
    (post : list X) :
  Forall (fun x => P x = false) l2 ->
  P o = true ->
  l1 ++ l2 = pre ++ o :: post ->
  exists post', l1 = pre ++ o :: post' /\ post = post' ++ l2.
Proof.
  revert pre. induction l1 as [| x l1 IH]; intros pre Hl2 Ho Heq.
  - simpl in Heq. subst l2. apply Forall_app in Hl2 as [_ Hl2].
    inversion Hl2; subst. congruence.
  - destruct pre as [| y pre]; simpl in Heq; inversion Heq; subst.
    + exists l1. now split.
    + destruct (IH pre Hl2 Ho H1) as [post' [-> ->]].
      exists post'. now split.
Qed.

Lemma member_satisfies {X : Type} (P : X -> Prop) (l pre : list X) (o : X)
    (post : list X) :
  Forall P l -> l = pre ++ o :: post -> P o.
Proof.
  intros Hl ->. apply Forall_app in Hl as [_ Hl]. now inversion Hl.
Qed.

Section WithOrderlyParts.

Context {Event State W : Type}.
Context (port : forall c : Call Event, W -> (Thrown + Reply c) * W).
Context (persist : list Event -> Prog Event unit).
Context (publish : Event -> Prog Event unit).
Context (complaint : string) (cmdId : string).
Context (s : State) (events : list Event) (next : State).

(** What the facts below need of the two open parts: persisting only
    queries the store and, when it succeeds, has committed; publishing
    only publishes. *)
Hypothesis persist_queries : forall es w seen,
  Forall (fun o => is_query o = true) (trace (run port (persist es) w seen)).
Hypothesis persist_commits : forall es w seen u,
  settled (run port (persist es) w seen) = inr u ->
  In committed (trace (run port (persist es) w seen)).
Hypothesis publish_publishes : forall e w seen,
  Forall (fun o => is_publish o = true) (trace (run port (publish e) w seen)).

Local Abbreviation body kv :=
  (pipeline true complaint kv cmdId persist publish s events next).
Local Abbreviation decided kv :=
  (after_lookup kv cmdId persist publish s events next).

Lemma for_each_publishes es w seen :
  Forall (fun o => is_publish o = true) (trace (run port (for_each es publish) w seen)).
Proof.
  revert w seen. induction es as [| e es IH]; intros w seen; simpl.
  - constructor.
  - rewrite EffectsFacts.run_bind. unfold then_run.
    destruct (settled (run port (publish e) w seen)); simpl.
    + apply publish_publishes.
    + apply Forall_app. split; [apply publish_publishes | apply IH].
Qed.

Lemma decided_course kv w seen :
  Course events (run port (persist events) w seen) (run port (decided kv) w seen).
Proof.
  unfold after_lookup, Course. destruct events as [| e es] eqn:Hev.
  - left. now split.
  - right. rewrite <- Hev.
    replace (length events =? 0)%nat with false by (rewrite Hev; reflexivity).
    assert (Hne : events <> []) by (rewrite Hev; discriminate).
    rewrite EffectsFacts.run_bind. unfold then_run.
    set (outp := run port (persist events) w seen).
    destruct (settled outp) as [t | u] eqn:Hp.
    + left. exists t. now repeat split.
    + right. exists u.
      rewrite EffectsFacts.run_bind. unfold then_run.
      destruct kv.
      * simpl. destruct (port (KvSet ("cmd:" +:+ cmdId) "1" 3600) (ports_after outp))
          as [[t | v] w1]; simpl.
        -- exists [Performed (KvSet ("cmd:" +:+ cmdId) "1" 3600) false], [].
           repeat split; auto; repeat constructor.
        -- rewrite EffectsFacts.run_bind. unfold then_run.
           set (outl := run port (for_each events publish) w1 (seen_after outp)).
           assert (Hl := for_each_publishes events w1 (seen_after outp)). fold outl in Hl.
           exists [Performed (KvSet ("cmd:" +:+ cmdId) "1" 3600) true], (trace outl).
           destruct (settled outl); simpl; rewrite ?app_nil_r;
             repeat split; auto; repeat constructor.
      * simpl. rewrite EffectsFacts.run_bind. unfold then_run.
        set (outl := run port (for_each events publish) (ports_after outp) (seen_after outp)).
        assert (Hl := for_each_publishes events (ports_after outp) (seen_after outp)).
        fold outl in Hl.
        exists [], (trace outl).
        destruct (settled outl); simpl; rewrite ?app_nil_r;
          repeat split; auto; repeat constructor.
Qed.

(** A run of the whole body is a lookup, or none, and then possibly the
    steps after it. *)
Lemma body_course kv w seen :
  exists pre w',
    Forall (fun o => is_lookup o = true) pre
    /\ (trace (run port (body kv) w seen) = pre
        \/ (trace (run port (body kv) w seen) = pre ++ trace (run port (decided kv) w' seen)
            /\ settled (run port (body kv) w seen) = settled (run port (decided kv) w' seen)
            /\ Course events (run port (persist events) w' seen)
                 (run port (decided kv) w' seen))).
Proof.
  unfold pipeline. simpl. destruct kv.
  - simpl. destruct (port (KvGet ("cmd:" +:+ cmdId)) w) as [[t | v] w'] eqn:Hget; simpl.
    + exists [Performed (KvGet ("cmd:" +:+ cmdId)) false], w.
      split; [repeat constructor | now left].
    + exists [Performed (KvGet ("cmd:" +:+ cmdId)) true], w'.
      split; [repeat constructor |].
      destruct (truthy_opt v); [now left | right].
      repeat split. apply decided_course.
  - exists [], w. split; [constructor | right].
    repeat split. apply decided_course.
Qed.

Lemma lookup_only (o : Obs Event) :
  is_lookup o = true ->
  is_publish o = false /\ is_cache_write o = false /\ is_query o = false.
Proof. destruct o as [[] ?]; simpl; intros; try discriminate; auto. Qed.

Lemma query_only (o : Obs Event) :
  is_query o = true ->
  is_publish o = false /\ is_cache_write o = false /\ is_lookup o = false.
Proof. destruct o as [[] ?]; simpl; intros; try discriminate; auto. Qed.

Lemma cache_write_only (o : Obs Event) :
  is_cache_write o = true ->
  is_publish o = false /\ is_query o = false /\ is_lookup o = false.
Proof. destruct o as [[] ?]; simpl; intros; try discriminate; auto. Qed.

Lemma publish_only (o : Obs Event) :
  is_publish o = true ->
  is_cache_write o = false /\ is_query o = false /\ is_lookup o = false.
Proof. destruct o as [[] ?]; simpl; intros; try discriminate; auto. Qed.

Local Ltac weaken H lemma :=
  eapply List.Forall_impl; [| exact H]; cbv beta; intros ? ?; apply lemma; assumption.

(** Law 5 inside one call: nothing reaches the bus before the commit. *)
Lemma publish_after_commit kv w seen pre o post :
  trace (run port (body kv) w seen) = pre ++ o :: post ->
  is_publish o = true ->
  In committed pre.
Proof.
  intros Htr Ho.
  destruct (body_course kv w seen) as [pre0 [w' [Hpre0 [Hlook | [Hrun [_ Hcourse]]]]]].
  - rewrite Hlook in Htr.
    apply (member_satisfies _ _ _ _ _ Hpre0), lookup_only in Htr. intuition congruence.
  - rewrite Hrun in Htr.
    assert (Hq := persist_queries events w' seen).
    destruct Hcourse as [[_ Hnil] | [[t [_ [_ Hfail]]] | [u [tk [tl [_ [Hp [Hok [Htk _]]]]]]]]].
    + rewrite Hnil, app_nil_r in Htr.
      apply (member_satisfies _ _ _ _ _ Hpre0), lookup_only in Htr. intuition congruence.
    + rewrite Hfail in Htr.
      assert (Hall : Forall (fun o => is_publish o = false)
                       (pre0 ++ trace (run port (persist events) w' seen))).
      { apply Forall_app. split; [weaken Hpre0 lookup_only | weaken Hq query_only]. }
      apply (member_satisfies _ _ _ _ _ Hall) in Htr. congruence.
    + rewrite Hok, !app_assoc in Htr.
      apply split_after_prefix with (P := is_publish) in Htr; auto.
      * destruct Htr as [pre' [-> _]].
        apply in_or_app. left. apply in_or_app. left. apply in_or_app. right.
        now apply persist_commits with u.
      * repeat (apply Forall_app; split);
          [weaken Hpre0 lookup_only | weaken Hq query_only | weaken Htk cache_write_only].
Qed.

(** The cache is written only after a committed, non-empty batch. *)
Lemma cache_write_after_commit kv w seen pre o post :
  trace (run port (body kv) w seen) = pre ++ o :: post ->
  is_cache_write o = true ->
  events <> [] /\ In committed pre.
Proof.
  intros Htr Ho.
  destruct (body_course kv w seen) as [pre0 [w' [Hpre0 [Hlook | [Hrun [_ Hcourse]]]]]].
  - rewrite Hlook in Htr.
    apply (member_satisfies _ _ _ _ _ Hpre0), lookup_only in Htr. intuition congruence.
  - rewrite Hrun in Htr.
    assert (Hq := persist_queries events w' seen).
    destruct Hcourse as [[_ Hnil] | [[t [_ [_ Hfail]]] | [u [tk [tl [Hne [Hp [Hok _]]]]]]]].
    + rewrite Hnil, app_nil_r in Htr.
      apply (member_satisfies _ _ _ _ _ Hpre0), lookup_only in Htr. intuition congruence.
    + rewrite Hfail in Htr.
      assert (Hall : Forall (fun o => is_cache_write o = false)
                       (pre0 ++ trace (run port (persist events) w' seen))).
      { apply Forall_app. split; [weaken Hpre0 lookup_only | weaken Hq query_only]. }
      apply (member_satisfies _ _ _ _ _ Hall) in Htr. congruence.
    + split; [assumption |].
      rewrite Hok, app_assoc in Htr.
      apply split_after_prefix with (P := is_cache_write) in Htr; auto.
      * destruct Htr as [pre' [-> _]].
        apply in_or_app. left. apply in_or_app. right.
        now apply persist_commits with u.
      * apply Forall_app; split; [weaken Hpre0 lookup_only | weaken Hq query_only].
Qed.

(** When persisting rolls back after a failed write, so does a call as
    a whole: the rollback is the last thing it does, the error goes to
    the caller, and nothing was published. *)
Lemma failed_write_rolled_back kv w seen pre o post :
  (forall es w seen pre o post,
     trace (run port (persist es) w seen) = pre ++ o :: post ->
     is_failed_write o ->
     (exists t, settled (run port (persist es) w seen) = inl t)
     /\ exists r, post = [r] /\ is_rollback r) ->
  trace (run port (body kv) w seen) = pre ++ o :: post ->
  is_failed_write o ->
  (exists t, settled (run port (body kv) w seen) = inl t)
  /\ (exists r, post = [r] /\ is_rollback r)
  /\ Forall (fun o => is_publish o = false) (trace (run port (body kv) w seen)).
Proof.
  intros Hroll Htr Ho.
  assert (Hoq : is_query o = true) by (destruct Ho as [q [p [-> _]]]; reflexivity).
  destruct (body_course kv w seen) as [pre0 [w' [Hpre0 [Hlook | [Hrun [Hset Hcourse]]]]]].
  - rewrite Hlook in Htr.
    apply (member_satisfies _ _ _ _ _ Hpre0), lookup_only in Htr. intuition congruence.
  - rewrite Hrun in *. rewrite Hset.
    assert (Hq := persist_queries events w' seen).
    assert (Hpre0q : Forall (fun o => is_query o = false) pre0)
      by (weaken Hpre0 lookup_only).
    destruct Hcourse as [[_ Hnil] | [[t [Hp [Hout Hfail]]] | [u [tk [tl [_ [Hp [Hok [Htk Htl]]]]]]]]].
    + rewrite Hnil, app_nil_r in Htr.
      apply (member_satisfies _ _ _ _ _ Hpre0), lookup_only in Htr. intuition congruence.
    + rewrite Hfail in *.
      apply split_after_prefix with (P := is_query) in Htr; auto.
      destruct Htr as [pre' [-> Htp]].
      destruct (Hroll _ _ _ _ _ _ Htp Ho) as [_ Hr].
      split; [eauto |]. split; [exact Hr |].
      apply Forall_app. split; [weaken Hpre0 lookup_only | weaken Hq query_only].
    + rewrite Hok in Htr.
      apply split_after_prefix with (P := is_query) in Htr; auto.
      destruct Htr as [pre' [-> Htp]].
      apply split_before_suffix with (P := is_query) in Htp; auto.
      * destruct Htp as [post' [Htp _]].
        destruct (Hroll _ _ _ _ _ _ Htp Ho) as [[t Ht] _]. congruence.
      * apply Forall_app. split; [weaken Htk cache_write_only | weaken Htl publish_only].
Qed.



End WithOrderlyParts.
End PipelineFacts.

(** ** [handlers-generic.ts] *)

Module HandlersGenericFacts.

Ltac answer_ports port :=
  repeat match goal with
    | |- context [port ?c ?w] =>
        let r := fresh "reply" in
        destruct (port c w) as [[? | r] ?]; try destruct r; simpl
    end.

Ltac split_trace H :=
  lazymatch type of H with
  | [] = ?pre ++ _ :: _ => exfalso; destruct pre; discriminate H
  | _ :: _ = ?pre ++ _ :: _ =>
      let H1 := fresh "Hhere" in
      destruct pre; simpl in H; injection H as H1 H;
      [try rewrite <- H1 in *; try rewrite <- H in *; clear H1 H
      | clear H1; split_trace H]
  end.

Section WithSpec.

Context {Raw Domain Command Event State View Answer Env Seed : Type}.
Context (command_id : Command -> option string).
Context (event_id : Event -> option string).
Context (stringify_command : Command -> string).
Context (stringify_events : list Event -> string).
Context (as_command : Domain -> Command).
Context (spec : ComposeGeneric.DomainSpec Raw Domain Command Event State View Answer Env Seed).
Context {W : Type} (port : forall c : Call Event, W -> (Thrown + Reply c) * W).

Local Abbreviation persist := (HandlersGeneric.persistAndOutbox stringify_events).
Local Abbreviation publish :=
  (HandlersGeneric.dedupeBy event_id HandlersGeneric.directPublish).

Lemma handle_is_pipeline deps rnd env s c :
  HandlersGeneric.handle command_id event_id stringify_command stringify_events spec
    deps rnd env s c
  = pipeline (ComposeGeneric.validate spec c)
      ("Invalid command: " +:+ stringify_command c)
      (HandlersGeneric.kv deps) (or_else (command_id c) rnd) persist publish s
      (ComposeGeneric.decide spec env s c)
      (ComposeGeneric.fold spec _ _ (ComposeGeneric.evolve spec) s
         (ComposeGeneric.decide spec env s c)).
Proof. reflexivity. Qed.

Lemma persist_queries es w seen :
  Forall (fun o => is_query o = true) (trace (run port (persist es) w seen)).
Proof.
  unfold HandlersGeneric.persistAndOutbox. simpl.
  answer_ports port; repeat constructor.
Qed.

Lemma persist_commits es w seen u :
  settled (run port (persist es) w seen) = inr u ->
  In committed (trace (run port (persist es) w seen)).
Proof.
  unfold HandlersGeneric.persistAndOutbox. simpl.
  answer_ports port; intros H; try discriminate H.
  unfold committed. simpl. tauto.
Qed.


(** A rejected write is followed by [rollback], and then the error goes
    on to the caller. *)
Lemma persist_rolls_back es w seen pre o post :
  trace (run port (persist es) w seen) = pre ++ o :: post ->
  is_failed_write o ->
  (exists t, settled (run port (persist es) w seen) = inl t)
  /\ exists r, post = [r] /\ is_rollback r.
Proof.
  unfold HandlersGeneric.persistAndOutbox. simpl.
  answer_ports port; intros Htr [q [p [Ho [Hbegin Hroll]]]];
    split_trace Htr; try discriminate Ho; injection Ho as <- _; try congruence;
    (split; [eauto | eexists; split; [reflexivity | eexists; reflexivity]]).
Qed.

Lemma publish_publishes e w seen :
  Forall (fun o => is_publish o = true) (trace (run port (publish e) w seen)).
Proof.
  unfold HandlersGeneric.dedupeBy, HandlersGeneric.directPublish.
  destruct (truthy_opt (event_id e)); simpl.
  - destruct (bool_decide _); simpl; [constructor |].
    answer_ports port; repeat constructor.
  - answer_ports port; repeat constructor.
Qed.


End WithSpec.
End HandlersGenericFacts.

(** ** [handlers.ts] *)

Module HandlersFacts.
Import HandlersGenericFacts.

Section WithJson.

Context (stringify_command : Spec.Command -> string).
Context (stringify_events : list Spec.Event -> string).
Context {W : Type} (port : forall c : Call Spec.Event, W -> (Thrown + Reply c) * W).

Local Abbreviation persist := (Handlers.persistAndOutbox stringify_events).
Local Abbreviation publish := (Handlers.dedupeBy Handlers.directPublish).

Lemma makeHandle_is_pipeline deps rnd amb s c :
  Handlers.makeHandle stringify_command stringify_events deps rnd amb s c
  = pipeline (Spec.validate c) ("Invalid command: " +:+ stringify_command c)
      (Handlers.kv deps) (or_else (Spec.command_id c) rnd) persist publish s
      (Spec.decide amb s c) (Spec.fold Spec.evolve s (Spec.decide amb s c)).
Proof. reflexivity. Qed.

Lemma shortener_persist_queries es w seen :
  Forall (fun o => is_query o = true) (trace (run port (persist es) w seen)).
Proof.
  unfold Handlers.persistAndOutbox. simpl.
  answer_ports port; repeat constructor.
Qed.

Lemma shortener_persist_commits es w seen u :
  settled (run port (persist es) w seen) = inr u ->
  In committed (trace (run port (persist es) w seen)).
Proof.
  unfold Handlers.persistAndOutbox. simpl.
  answer_ports port; intros H; try discriminate H.
  unfold committed. simpl. tauto.
Qed.


Lemma shortener_publish_publishes e w seen :
  Forall (fun o => is_publish o = true) (trace (run port (publish e) w seen)).
Proof.
  unfold Handlers.dedupeBy, Handlers.directPublish.
  destruct (truthy (Spec.event_id e)); simpl.
  - destruct (bool_decide _); simpl; [constructor |].
    answer_ports port; repeat constructor.
  - answer_ports port; repeat constructor.
Qed.


End WithJson.
End HandlersFacts.

(** ** The claims about the handlers *)

(** C6. A command that fails [validate] makes [handle] throw the
    invalid-command error at once: the promise is rejected with
    [Error("Invalid command: ...")], no call on the store, the cache or
    the bus was made (the trace is empty), and the ports and the set of
    seen identifiers are as before. This holds of the generic handler and
    of the URL shortener's. *)
Theorem invalid_command_fails_without_effects :
  (forall (Raw Domain Command Event State View Answer Env Seed : Type)
          (command_id : Command -> option string)
          (event_id : Event -> option string)
          (stringify_command : Command -> string)
          (stringify_events : list Event -> string)
          (spec : ComposeGeneric.DomainSpec Raw Domain Command Event State View Answer Env Seed)
          (deps : HandlersGeneric.Deps) (rnd : string) (env : Env)
          (s : State) (c : Command)
          (W : Type) (port : forall c : Call Event, W -> (Thrown + Reply c) * W)
          (w : W) (seen : gset string),
      ComposeGeneric.validate spec c = false ->
      run port
        (HandlersGeneric.handle command_id event_id stringify_command
           stringify_events spec deps rnd env s c) w seen
      = mkOutcome (inl (JsError ("Invalid command: " +:+ stringify_command c)))
          w seen [])
  /\
  (forall (stringify_command : Spec.Command -> string)
          (stringify_events : list Spec.Event -> string)
          (deps : Handlers.Deps) (rnd : string) (amb : Spec.Ambient)
          (s : Spec.State) (c : Spec.Command)
          (W : Type) (port : forall c : Call Spec.Event, W -> (Thrown + Reply c) * W)
          (w : W) (seen : gset string),
      Spec.validate c = false ->
      run port
        (Handlers.makeHandle stringify_command stringify_events deps rnd amb s c)
        w seen
      = mkOutcome (inl (JsError ("Invalid command: " +:+ stringify_command c)))
          w seen []).
Proof.
  split; intros.
  - rewrite HandlersGenericFacts.handle_is_pipeline.
    match goal with H : _ = false |- _ => rewrite H end.
    apply PipelineFacts.invalid_rejected.
  - rewrite HandlersFacts.makeHandle_is_pipeline.
    match goal with H : _ = false |- _ => rewrite H end.
    apply PipelineFacts.invalid_rejected.
Qed.

(** The counter service asked to ["Reset"], and the shortener asked to
    create a link to an address that does not start with [http]. *)
Lemma invalid_command_fails_without_effects_witness :
  run TestDoubles.memory_port
    (HandlersGeneric.handle Counter.id Counter.event_id Counter.stringify_command
       Counter.stringify_events Counter.CounterSpec (HandlersGeneric.mkDeps true)
       "k3j9x" (Counter.mkClock 0 "2023-01-01T00:00:00.000Z")
       (Counter.mkState 5) (Counter.mkCommand "Reset" 0 None))
    TestDoubles.empty ∅
  = mkOutcome
      (inl (JsError ("Invalid command: " +:+
                     Counter.stringify_command (Counter.mkCommand "Reset" 0 None))))
      TestDoubles.empty ∅ []
  /\
  run TestDoubles.memory_port
    (Handlers.makeHandle (fun _ => "{}") (fun _ => "[]") (Handlers.mkDeps true)
       "k3j9x" (Spec.mkAmbient "r4nd0m" "2023-01-01T00:00:00.000Z") Spec.s0
       (Spec.Create "ftp://example.com" None None None))
    TestDoubles.empty ∅
  = mkOutcome (inl (JsError ("Invalid command: " +:+ "{}"))) TestDoubles.empty ∅ [].
Proof.
  split.
  - apply (proj1 invalid_command_fails_without_effects). reflexivity.
  - apply (proj2 invalid_command_fails_without_effects
             (fun _ => "{}") (fun _ => "[]")). reflexivity.
Defined.



(** The positions of a list where [P] holds, all excluded, leave none. *)
Lemma none_where_excluded {X : Type} (P : X -> bool) (l : list X) :
  (forall pre o post, l = pre ++ o :: post -> P o = true -> False) ->
  Forall (fun o => P o = false) l.
Proof.
  intros H. apply List.Forall_forall. intros o Hin.
  destruct (in_split _ _ Hin) as [pre [post Heq]].
  destruct (P o) eqn:Ho; [| reflexivity].
  exfalso. eapply H; eassumption.
Qed.

(** C9. For a valid command, with a cache configured: when the lookup of
    [cmd:<id>] is answered with a truthy value, [handle] returns the input
    state and the lookup is the only call made on the ports (nothing is
    decided, persisted, published or written to the cache, and the set of
    seen identifiers is as before). And in every run: when [decide] gives
    no events the cache is not written, and a write of the cache comes
    only after the commit of a batch that is not empty. This holds of the
    generic handler and of the URL shortener's. *)
Theorem idempotency_hit_and_cache_writes :
  (forall (Raw Domain Command Event State View Answer Env Seed : Type)
          (command_id : Command -> option string)
          (event_id : Event -> option string)
          (stringify_command : Command -> string)
          (stringify_events : list Event -> string)
          (spec : ComposeGeneric.DomainSpec Raw Domain Command Event State View Answer Env Seed)
          (deps : HandlersGeneric.Deps) (rnd : string) (env : Env)
          (s : State) (c : Command)
          (W : Type) (port : forall c : Call Event, W -> (Thrown + Reply c) * W)
          (w : W) (seen : gset string),
      ComposeGeneric.validate spec c = true ->
      let key := "cmd:" +:+ or_else (command_id c) rnd in
      let out :=
        run port
          (HandlersGeneric.handle command_id event_id stringify_command
             stringify_events spec deps rnd env s c) w seen in
      (HandlersGeneric.kv deps = true ->
       forall v w', port (KvGet key) w = (inr v, w') -> truthy_opt v = true ->
                    out = mkOutcome (inr s) w' seen [Performed (KvGet key) true])
      /\ (ComposeGeneric.decide spec env s c = [] ->
          Forall (fun o => is_cache_write o = false) (trace out))
      /\ (forall pre o post,
            trace out = pre ++ o :: post -> is_cache_write o = true ->
            ComposeGeneric.decide spec env s c <> [] /\ In committed pre))
  /\
  (forall (stringify_command : Spec.Command -> string)
          (stringify_events : list Spec.Event -> string)
          (deps : Handlers.Deps) (rnd : string) (amb : Spec.Ambient)
          (s : Spec.State) (c : Spec.Command)
          (W : Type) (port : forall c : Call Spec.Event, W -> (Thrown + Reply c) * W)
          (w : W) (seen : gset string),
      Spec.validate c = true ->
      let key := "cmd:" +:+ or_else (Spec.command_id c) rnd in
      let out :=
        run port
          (Handlers.makeHandle stringify_command stringify_events deps rnd amb s c)
          w seen in
      (Handlers.kv deps = true ->
       forall v w', port (KvGet key) w = (inr v, w') -> truthy_opt v = true ->
                    out = mkOutcome (inr s) w' seen [Performed (KvGet key) true])
      /\ (Spec.decide amb s c = [] ->
          Forall (fun o => is_cache_write o = false) (trace out))
      /\ (forall pre o post,
            trace out = pre ++ o :: post -> is_cache_write o = true ->
            Spec.decide amb s c <> [] /\ In committed pre)).
Proof.
  split.
  - intros ? ? ? ? ? ? ? ? ? command_id event_id stringify_command stringify_events
      spec deps rnd env s c W port w seen Hvalid key out.
    subst out key. rewrite HandlersGenericFacts.handle_is_pipeline, Hvalid.
    assert (Horder : forall pre o post,
              trace (run port
                       (pipeline true ("Invalid command: " +:+ stringify_command c)
                          (HandlersGeneric.kv deps) (or_else (command_id c) rnd)
                          (HandlersGeneric.persistAndOutbox stringify_events)
                          (HandlersGeneric.dedupeBy event_id HandlersGeneric.directPublish)
                          s (ComposeGeneric.decide spec env s c)
                          (ComposeGeneric.fold spec _ _ (ComposeGeneric.evolve spec) s
                             (ComposeGeneric.decide spec env s c))) w seen)
              = pre ++ o :: post ->
              is_cache_write o = true ->
              ComposeGeneric.decide spec env s c <> [] /\ In committed pre).
    { intros pre o post. apply PipelineFacts.cache_write_after_commit.
      - intros. apply HandlersGenericFacts.persist_queries.
      - intros. eapply HandlersGenericFacts.persist_commits; eassumption.
      - intros. apply HandlersGenericFacts.publish_publishes. }
    repeat split.
    + intros Hkv v w' Hget Hv. now apply PipelineFacts.hit_returns_input with v.
    + intros Hnil. apply none_where_excluded. intros pre o post Htr Ho.
      destruct (Horder pre o post Htr Ho) as [Hne _]. contradiction.
    + eapply Horder; eassumption.
    + eapply Horder; eassumption.
  - intros stringify_command stringify_events deps rnd amb s c W port w seen
      Hvalid key out.
    subst out key. rewrite HandlersFacts.makeHandle_is_pipeline, Hvalid.
    assert (Horder : forall pre o post,
              trace (run port
                       (pipeline true ("Invalid command: " +:+ stringify_command c)
                          (Handlers.kv deps) (or_else (Spec.command_id c) rnd)
                          (Handlers.persistAndOutbox stringify_events)
                          (Handlers.dedupeBy Handlers.directPublish)
                          s (Spec.decide amb s c)
                          (Spec.fold Spec.evolve s (Spec.decide amb s c))) w seen)
              = pre ++ o :: post ->
              is_cache_write o = true ->
              Spec.decide amb s c <> [] /\ In committed pre).
    { intros pre o post. apply PipelineFacts.cache_write_after_commit.
      - intros. apply HandlersFacts.shortener_persist_queries.
      - intros. eapply HandlersFacts.shortener_persist_commits; eassumption.
      - intros. apply HandlersFacts.shortener_publish_publishes. }
    repeat split.
    + intros Hkv v w' Hget Hv. now apply PipelineFacts.hit_returns_input with v.
    + intros Hnil. apply none_where_excluded. intros pre o post Htr Ho.
      destruct (Horder pre o post Htr Ho) as [Hne _]. contradiction.
    + eapply Horder; eassumption.
    + eapply Horder; eassumption.
Qed.

(** A command [c1] that the cache already knows, for the counter and for
    the shortener. *)
Lemma idempotency_hit_and_cache_writes_witness :
  run TestDoubles.memory_port
    (HandlersGeneric.handle Counter.id Counter.event_id Counter.stringify_command
       Counter.stringify_events Counter.CounterSpec (HandlersGeneric.mkDeps true)
       "k3j9x" (Counter.mkClock 0 "2023-01-01T00:00:00.000Z")
       (Counter.mkState 7) (Counter.mkCommand "Increment" 5 (Some "c1")))
    (TestDoubles.mkMemory [] [] {[ "cmd:c1" := "1" ]}) ∅
  = mkOutcome (inr (Counter.mkState 7))
      (TestDoubles.mkMemory [] [] {[ "cmd:c1" := "1" ]}) ∅
      [Performed (KvGet "cmd:c1") true]
  /\
  run TestDoubles.memory_port
    (Handlers.makeHandle (fun _ => "{}") (fun _ => "[]") (Handlers.mkDeps true)
       "k3j9x" (Spec.mkAmbient "r4nd0m" "2023-01-01T00:00:00.000Z") Spec.s0
       (Spec.Create "https://x.com" None None (Some "c1")))
    (TestDoubles.mkMemory [] [] {[ "cmd:c1" := "1" ]}) ∅
  = mkOutcome (inr Spec.s0)
      (TestDoubles.mkMemory [] [] {[ "cmd:c1" := "1" ]}) ∅
      [Performed (KvGet "cmd:c1") true].
Proof.
  split.
  - apply (proj1 (proj1 idempotency_hit_and_cache_writes _ _ _ _ _ _ _ _ _
                    Counter.id Counter.event_id Counter.stringify_command
                    Counter.stringify_events Counter.CounterSpec
                    (HandlersGeneric.mkDeps true) "k3j9x"
                    (Counter.mkClock 0 "2023-01-01T00:00:00.000Z")
                    (Counter.mkState 7) (Counter.mkCommand "Increment" 5 (Some "c1"))
                    _ TestDoubles.memory_port
                    (TestDoubles.mkMemory [] [] {[ "cmd:c1" := "1" ]}) ∅ eq_refl)
             eq_refl (Some "1")); reflexivity.
  - apply (proj1 (proj2 idempotency_hit_and_cache_writes (fun _ => "{}") (fun _ => "[]")
                    (Handlers.mkDeps true) "k3j9x"
                    (Spec.mkAmbient "r4nd0m" "2023-01-01T00:00:00.000Z") Spec.s0
                    (Spec.Create "https://x.com" None None (Some "c1"))
                    _ TestDoubles.memory_port
                    (TestDoubles.mkMemory [] [] {[ "cmd:c1" := "1" ]}) ∅ eq_refl)
             eq_refl (Some "1")); reflexivity.
Defined.

(** C7. [httpHandle] never throws: whatever the ports do, its promise is
    fulfilled with a [{ state, result }]. When [normalize] throws, that
    value is the input state with a result that carries the error's text
    and the status 400, and no call on the ports was made. This holds of
    the generic handler and of the URL shortener's. *)
Theorem httpHandle_never_throws :
  (forall (Raw Domain Command Event State View Answer Env Seed : Type)
          (command_id : Command -> option string)
          (event_id : Event -> option string)
          (stringify_command : Command -> string)
          (stringify_events : list Event -> string)
          (as_command : Domain -> Command)
          (spec : ComposeGeneric.DomainSpec Raw Domain Command Event State View Answer Env Seed)
          (deps : HandlersGeneric.Deps) (rnd : string) (env : Env)
          (s : State) (raw : Raw)
          (W : Type) (port : forall c : Call Event, W -> (Thrown + Reply c) * W)
          (w : W) (seen : gset string),
      let out :=
        run port
          (HandlersGeneric.httpHandle command_id event_id stringify_command
             stringify_events as_command spec deps rnd env s raw) w seen in
      (exists ret, settled out = inr ret)
      /\ (forall thrown,
            ComposeGeneric.normalize spec raw = inl thrown ->
            out = mkOutcome
                    (inr (HandlersGeneric.mkHttpReturn s
                            (HandlersGeneric.mkHttpResult false
                               (Some (error_text thrown)) 400)))
                    w seen []))
  /\
  (forall (stringify_command : Spec.Command -> string)
          (stringify_events : list Spec.Event -> string)
          (deps : Handlers.Deps) (rnd_id rnd : string) (amb : Spec.Ambient)
          (s : Spec.State) (raw : Spec.Raw)
          (W : Type) (port : forall c : Call Spec.Event, W -> (Thrown + Reply c) * W)
          (w : W) (seen : gset string),
      let out :=
        run port
          (Handlers.makeHttpHandle stringify_command stringify_events deps rnd_id rnd
             amb s raw) w seen in
      (exists ret, settled out = inr ret)
      /\ (forall thrown,
            Spec.normalize raw = inl thrown ->
            out = mkOutcome
                    (inr (Handlers.mkHttpReturn s
                            (Handlers.mkHttpResult None None None
                               (Some (error_text thrown)) 400)))
                    w seen [])).
Proof.
  split.
  - intros. subst out. split.
    + unfold HandlersGeneric.httpHandle.
      apply EffectsFacts.try_catch_settles with
        (h := fun error => HandlersGeneric.mkHttpReturn s
                (HandlersGeneric.mkHttpResult false (Some (error_text error)) 400)).
    + intros thrown Hn. unfold HandlersGeneric.httpHandle. rewrite Hn. reflexivity.
  - intros. subst out. split.
    + unfold Handlers.makeHttpHandle. destruct (Spec.normalize raw) as [error | domain].
      * simpl. eauto.
      * apply EffectsFacts.try_catch_settles with
          (h := fun error => Handlers.mkHttpReturn s
                  (Handlers.mkHttpResult None None None (Some (error_text error)) 500)).
    + intros thrown Hn. unfold Handlers.makeHttpHandle. rewrite Hn. reflexivity.
Qed.

(** A request without [url] sent to the shortener. *)
Lemma httpHandle_never_throws_witness :
  run TestDoubles.memory_port
    (Handlers.makeHttpHandle (fun _ => "{}") (fun _ => "[]") (Handlers.mkDeps true)
       "id0" "k3j9x" (Spec.mkAmbient "r4nd0m" "2023-01-01T00:00:00.000Z") Spec.s0
       (Spec.mkRaw Spec.UUndefined Spec.UUndefined Spec.UUndefined Spec.UUndefined))
    TestDoubles.empty ∅
  = mkOutcome
      (inr (Handlers.mkHttpReturn Spec.s0
              (Handlers.mkHttpResult None None None (Some "Invalid URL") 400)))
      TestDoubles.empty ∅ [].
Proof.
  apply (proj2 (proj2 httpHandle_never_throws (fun _ => "{}") (fun _ => "[]")
                  (Handlers.mkDeps true) "id0" "k3j9x"
                  (Spec.mkAmbient "r4nd0m" "2023-01-01T00:00:00.000Z") Spec.s0
                  (Spec.mkRaw Spec.UUndefined Spec.UUndefined Spec.UUndefined
                     Spec.UUndefined)
                  _ TestDoubles.memory_port TestDoubles.empty ∅)
           (JsError "Invalid URL")).
  reflexivity.
Defined.

(** ** The transaction around persisting (C8) *)

(** In both handlers nothing is published before the commit has been
    fulfilled. *)
Lemma generic_publish_after_commit
    {Raw Domain Command Event State View Answer Env Seed : Type}
    (command_id : Command -> option string) (event_id : Event -> option string)
    (stringify_command : Command -> string) (stringify_events : list Event -> string)
    (spec : ComposeGeneric.DomainSpec Raw Domain Command Event State View Answer Env Seed)
    (deps : HandlersGeneric.Deps) (rnd : string) (env : Env) (s : State) (c : Command)
    {W : Type} (port : forall c : Call Event, W -> (Thrown + Reply c) * W)
    (w : W) (seen : gset string) (pre : list (Obs Event)) (o : Obs Event)
    (post : list (Obs Event)) :
  trace (run port
           (HandlersGeneric.handle command_id event_id stringify_command
              stringify_events spec deps rnd env s c) w seen)
  = pre ++ o :: post ->
  is_publish o = true ->
  In committed pre.
Proof.
  rewrite HandlersGenericFacts.handle_is_pipeline.
  destruct (ComposeGeneric.validate spec c).
  - apply PipelineFacts.publish_after_commit.
    + intros. apply HandlersGenericFacts.persist_queries.
    + intros. eapply HandlersGenericFacts.persist_commits; eassumption.
    + intros. apply HandlersGenericFacts.publish_publishes.
  - simpl. intros H. destruct pre; discriminate H.
Qed.

Lemma shortener_publish_after_commit
    (stringify_command : Spec.Command -> string)
    (stringify_events : list Spec.Event -> string)
    (deps : Handlers.Deps) (rnd : string) (amb : Spec.Ambient)
    (s : Spec.State) (c : Spec.Command)
    {W : Type} (port : forall c : Call Spec.Event, W -> (Thrown + Reply c) * W)
    (w : W) (seen : gset string) (pre : list (Obs Spec.Event)) (o : Obs Spec.Event)
    (post : list (Obs Spec.Event)) :
  trace (run port
           (Handlers.makeHandle stringify_command stringify_events deps rnd amb s c)
           w seen)
  = pre ++ o :: post ->
  is_publish o = true ->
  In committed pre.
Proof.
  rewrite HandlersFacts.makeHandle_is_pipeline.
  destruct (Spec.validate c).
  - apply PipelineFacts.publish_after_commit.
    + intros. apply HandlersFacts.shortener_persist_queries.
    + intros. eapply HandlersFacts.shortener_persist_commits; eassumption.
    + intros. apply HandlersFacts.shortener_publish_publishes.
  - simpl. intros H. destruct pre; discriminate H.
Qed.

(** In the generic handler a rejected write is followed by the rollback,
    which is the last call of the run; the promise of [handle] is
    rejected and nothing was published. *)
Lemma generic_failed_write_rolled_back
    {Raw Domain Command Event State View Answer Env Seed : Type}
    (command_id : Command -> option string) (event_id : Event -> option string)
    (stringify_command : Command -> string) (stringify_events : list Event -> string)
    (spec : ComposeGeneric.DomainSpec Raw Domain Command Event State View Answer Env Seed)
    (deps : HandlersGeneric.Deps) (rnd : string) (env : Env) (s : State) (c : Command)
    {W : Type} (port : forall c : Call Event, W -> (Thrown + Reply c) * W)
    (w : W) (seen : gset string) (pre : list (Obs Event)) (o : Obs Event)
    (post : list (Obs Event)) :
  let out :=
    run port
      (HandlersGeneric.handle command_id event_id stringify_command
         stringify_events spec deps rnd env s c) w seen in
  trace out = pre ++ o :: post ->
  is_failed_write o ->
  (exists t, settled out = inl t)
  /\ (exists r, post = [r] /\ is_rollback r)
  /\ Forall (fun o => is_publish o = false) (trace out).
Proof.
  intros out. subst out.
  rewrite HandlersGenericFacts.handle_is_pipeline.
  destruct (ComposeGeneric.validate spec c).
  - apply PipelineFacts.failed_write_rolled_back.
    + intros. apply HandlersGenericFacts.persist_queries.
    + intros. apply HandlersGenericFacts.publish_publishes.
    + intros. eapply HandlersGenericFacts.persist_rolls_back; eassumption.
  - simpl. intros H. destruct pre; discriminate H.
Qed.

(** C8, on the store of [TestDoubles.rejecting] that rejects the insert
    into [events]: [persistAndOutbox] of [handlers.ts] begins the
    transaction, has the insert rejected, and lets the error go on
    without a rollback, and so does [makeHandle] as a whole; the
    [persistAndOutbox] of [handlers-generic.ts] on the same store rolls
    back before the error goes on. *)
Theorem shortener_persist_skips_rollback :
  let insert_events := "insert into events(data) values ($1)" in
  let store := TestDoubles.rejecting insert_events in
  let events :=
    [Spec.Created "abc" "https://x.com" None "e1" "2023-01-01T00:00:00.000Z"] in
  let out :=
    run store (Handlers.persistAndOutbox (fun _ => "[]") events) TestDoubles.empty ∅ in
  let whole :=
    run store
      (Handlers.makeHandle (fun _ => "{}") (fun _ => "[]") (Handlers.mkDeps false)
         "k3j9x" (Spec.mkAmbient "r4nd0m" "2023-01-01T00:00:00.000Z") Spec.s0
         (Spec.Create "https://x.com" None None (Some "c1")))
      TestDoubles.empty ∅ in
  let generic :=
    run store (HandlersGeneric.persistAndOutbox (fun _ => "[]") events)
      TestDoubles.empty ∅ in
  settled out = inl (JsError "connection lost")
  /\ trace out = [Performed (SqlQuery "begin" []) true;
                  Performed (SqlQuery insert_events ["[]"]) false]
  /\ settled whole = inl (JsError "connection lost")
  /\ trace whole = [Performed (SqlQuery "begin" []) true;
                    Performed (SqlQuery insert_events ["[]"]) false]
  /\ settled generic = inl (JsError "connection lost")
  /\ trace generic = [Performed (SqlQuery "begin" []) true;
                      Performed (SqlQuery insert_events ["[]"]) false;
                      Performed (SqlQuery "rollback" []) true].
Proof. vm_compute. repeat split. Qed.

(** ** The law verification engine *)

Module LawEnforcementFacts.

Lemma append_assoc (a b c : string) : (a +:+ b) +:+ c = a +:+ (b +:+ c).
Proof.
  induction a as [| ch a IH]; [reflexivity |].
  change (String ch ((a +:+ b) +:+ c) = String ch (a +:+ (b +:+ c))).
  now rewrite IH.
Qed.

Lemma append_empty_r (a : string) : a +:+ "" = a.
Proof.
  induction a as [| ch a IH]; [reflexivity |].
  change (String ch (a +:+ "") = String ch a).
  now rewrite IH.
Qed.

Lemma occurs_in_itself (s : string) : occurs_in s s.
Proof. exists "", "". simpl. now rewrite append_empty_r. Qed.

Lemma occurs_in_after (a s t : string) : occurs_in s t -> occurs_in s (a +:+ t).
Proof.
  intros [pre [post ->]]. exists (a +:+ pre), post. now rewrite append_assoc.
Qed.

Lemma occurs_in_before (b s t : string) : occurs_in s t -> occurs_in s (t +:+ b).
Proof.
  intros [pre [post ->]]. exists pre, (post +:+ b). now rewrite !append_assoc.
Qed.

Lemma occurs_in_trans (s t u : string) :
  occurs_in s t -> occurs_in t u -> occurs_in s u.
Proof.
  intros Hst [pre [post ->]]. now apply occurs_in_after, occurs_in_before.
Qed.

Lemma occurs_in_join (sep x : string) (xs : list string) :
  In x xs -> occurs_in x (join sep xs).
Proof.
  induction xs as [| y ys IH]; intros Hin; [contradiction |].
  destruct ys as [| z zs].
  - destruct Hin as [-> | []]. apply occurs_in_itself.
  - destruct Hin as [-> | Hin].
    + change (join sep (x :: z :: zs)) with (x +:+ sep +:+ join sep (z :: zs)).
      apply occurs_in_before, occurs_in_itself.
    + change (join sep (y :: z :: zs)) with (y +:+ sep +:+ join sep (z :: zs)).
      now apply occurs_in_after, occurs_in_after, IH.
Qed.

(** Counting the results that passed: the count is the length exactly
    when all passed. *)
Lemma all_counted {X : Type} (f : X -> bool) (l : list X) :
  (length (List.filter f l) =? length l)%nat = true <-> forall x, In x l -> f x = true.
Proof.
  rewrite Nat.eqb_eq. split.
  - intros H. apply forallb_forall. now apply filter_length_forallb.
  - intros H. induction l as [| x l IH]; [reflexivity |].
    simpl. rewrite (H x (or_introl eq_refl)). simpl. f_equal.
    apply IH. intros y Hy. apply H. now right.
Qed.

(** An assertion goes through exactly when the predicate accepts the
    value of every run. *)
Lemma fc_assert_verdict {A : Type} (report : nat -> string) (numRuns : nat)
    (draw : nat -> A) (predicate : A -> bool) :
  LawEnforcement.fc_assert report numRuns draw predicate = inr tt
  <-> forall i, (i < numRuns)%nat -> predicate (draw i) = true.
Proof.
  unfold LawEnforcement.fc_assert.
  destruct (find _ _) as [i |] eqn:Hfind.
  - apply find_some in Hfind as [Hin Hbad]. apply in_seq in Hin.
    split; [discriminate |]. intros Hall.
    rewrite (Hall i) in Hbad by lia. discriminate Hbad.
  - split; [| reflexivity]. intros _ i Hi.
    assert (Hnone := find_none _ _ Hfind i).
    rewrite in_seq in Hnone. specialize (Hnone ltac:(lia)).
    now apply negb_false_iff in Hnone.
Qed.

(** A check built on an assertion passes exactly when the assertion goes
    through. *)
Lemma verdict_of_assertion (outcome : Thrown + unit)
    (passing : LawEnforcement.LawVerificationResult)
    (failing : Thrown -> LawEnforcement.LawVerificationResult) :
  LawEnforcement.passed passing = true ->
  (forall t, LawEnforcement.passed (failing t) = false) ->
  LawEnforcement.passed
    (match outcome with inr _ => passing | inl error => failing error end) = true
  <-> outcome = inr tt.
Proof.
  intros Hp Hf. destruct outcome as [t | []].
  - rewrite Hf. split; discriminate.
  - now rewrite Hp.
Qed.

Section WithDomain.

Context {Raw Domain Command Event State View Answer Env Seed : Type}.
Context (stringify_state : State -> option string).
Context (stringify_view : View -> option string).
Context (typeof_answer : Answer -> string).
Context (with_id : Event -> string -> Event).
Context (entropy : nat -> nat -> Seed).
Context (fc_report : nat -> string).

Local Abbreviation Laws :=
  (LawEnforcement.DomainLaws Raw Domain Command Event State View Answer Env Seed).
Local Abbreviation verifyAllLaws :=
  (LawEnforcement.verifyAllLaws stringify_state stringify_view typeof_answer with_id
     entropy fc_report).
Local Abbreviation enforceLaws :=
  (LawEnforcement.enforceLaws stringify_state stringify_view typeof_answer with_id
     entropy fc_report).

Lemma names_in_order (laws : Laws) :
  map LawEnforcement.law (LawEnforcement.results (verifyAllLaws laws))
  = ["1. Purity"; "2. Functoriality (R)"; "3. Observability Naturality (O)";
     "4. CQRS Commutativity"; "5. Outbox Commutativity"; "6. Push/Pull Equivalence";
     "7. Replay Determinism"; "8. Idempotence"; "9. Causality/Ordering";
     "10. Monoidal Aggregation"; "11. Pullback Correctness";
     "12. Pushout Schema Evolution"].
Proof.
  unfold LawEnforcement.verifyAllLaws. cbn [LawEnforcement.results map].
  unfold LawEnforcement.verifyPurity, LawEnforcement.verifyCQRSCommutativity,
    LawEnforcement.verifyReplayDeterminism, LawEnforcement.verifyIdempotence.
  repeat match goal with
    | |- context [match ?x with inl _ => _ | inr _ => _ end] => destruct x
    end; reflexivity.
Qed.

(** The line of a failed law shows its name and its description. *)
Lemma failed_line_shows (r : LawEnforcement.LawVerificationResult) :
  occurs_in (LawEnforcement.law r +:+ ": " +:+ LawEnforcement.description r)
    (LawEnforcement.failed_line r).
Proof.
  unfold LawEnforcement.failed_line.
  exists "❌ ".
  eexists. rewrite !append_assoc. reflexivity.
Qed.

Lemma message_shows (suite : LawEnforcement.LawVerificationSuite)
    (failedLaws : list LawEnforcement.LawVerificationResult)
    (r : LawEnforcement.LawVerificationResult) :
  In r failedLaws ->
  occurs_in (LawEnforcement.law r +:+ ": " +:+ LawEnforcement.description r)
    (LawEnforcement.errorMessage suite failedLaws).
Proof.
  intros Hin. apply occurs_in_trans with (LawEnforcement.failed_line r).
  - apply failed_line_shows.
  - unfold LawEnforcement.errorMessage.
    do 8 apply occurs_in_after. apply occurs_in_before.
    apply occurs_in_join. now apply in_map.
Qed.

End WithDomain.
End LawEnforcementFacts.

(** C3. [verifyAllLaws] always returns twelve results, one per law and in
    the order of the laws, whichever of them fail: the n-th result is the
    verdict of the n-th check run on the specification, so a check that
    fails does not keep a later one from running or from being reported
    (the checks of laws 4 and 7 fail exactly when one of their fifty
    trials does). [allPassed] is true exactly when every result has
    [passed = true]; and [enforceLaws] returns normally when [allPassed]
    is true and otherwise throws one error whose message shows the name
    and the description of every law that failed. *)
Theorem suite_reports_every_law :
  forall (Raw Domain Command Event State View Answer Env Seed : Type)
         (stringify_state : State -> option string)
         (stringify_view : View -> option string)
         (typeof_answer : Answer -> string)
         (with_id : Event -> string -> Event)
         (entropy : nat -> nat -> Seed)
         (fc_report : nat -> string)
         (laws : LawEnforcement.DomainLaws Raw Domain Command Event State View Answer Env Seed),
    let suite :=
      LawEnforcement.verifyAllLaws stringify_state stringify_view typeof_answer
        with_id entropy fc_report laws in
    let enforced :=
      LawEnforcement.enforceLaws stringify_state stringify_view typeof_answer
        with_id entropy fc_report laws in
    let fold_evolve :=
      LawEnforcement.fold laws _ _ (LawEnforcement.evolve laws) in
    let fold_project :=
      LawEnforcement.fold laws _ _ (LawEnforcement.project laws) in
    length (LawEnforcement.results suite) = 12
    /\ map LawEnforcement.law (LawEnforcement.results suite)
       = ["1. Purity"; "2. Functoriality (R)"; "3. Observability Naturality (O)";
          "4. CQRS Commutativity"; "5. Outbox Commutativity";
          "6. Push/Pull Equivalence"; "7. Replay Determinism"; "8. Idempotence";
          "9. Causality/Ordering"; "10. Monoidal Aggregation";
          "11. Pullback Correctness"; "12. Pushout Schema Evolution"]
    /\ (LawEnforcement.allPassed suite = true <->
        forall r, In r (LawEnforcement.results suite) -> LawEnforcement.passed r = true)
    /\ (LawEnforcement.allPassed suite = true -> exists line, enforced = inr line)
    /\ (LawEnforcement.allPassed suite = false ->
        exists message,
          enforced = inl (JsError message)
          /\ forall r,
               In r (LawEnforcement.results suite) ->
               LawEnforcement.passed r = false ->
               occurs_in
                 (LawEnforcement.law r +:+ ": " +:+ LawEnforcement.description r)
                 message)
    /\ LawEnforcement.results suite
       = [ LawEnforcement.verifyPurity stringify_state stringify_view entropy
             fc_report laws;
           LawEnforcement.verifyFunctoriality laws;
           LawEnforcement.verifyObservabilityNaturality laws;
           LawEnforcement.verifyCQRSCommutativity typeof_answer entropy fc_report laws;
           LawEnforcement.verifyOutboxCommutativity laws;
           LawEnforcement.verifyPushPullEquivalence laws;
           LawEnforcement.verifyReplayDeterminism stringify_state entropy fc_report
             laws;
           LawEnforcement.verifyIdempotence with_id entropy fc_report laws;
           LawEnforcement.verifyCausalityOrdering laws;
           LawEnforcement.verifyMonoidalAggregation laws;
           LawEnforcement.verifyPullbackCorrectness laws;
           LawEnforcement.verifyPushoutSchemaEvolution laws ]
    /\ (LawEnforcement.passed
          (LawEnforcement.verifyCQRSCommutativity typeof_answer entropy fc_report laws)
        = true
        <-> forall i, (i < 50)%nat ->
              let events := LawEnforcement.generateEvents laws (entropy 4 i) in
              typeof_answer
                (LawEnforcement.queries laws
                   (fold_project (LawEnforcement.initialView laws) events))
              = typeof_answer
                  (LawEnforcement.deriveView laws
                     (fold_evolve (LawEnforcement.initialState laws) events)))
    /\ (LawEnforcement.passed
          (LawEnforcement.verifyReplayDeterminism stringify_state entropy fc_report
             laws)
        = true
        <-> forall i, (i < 50)%nat ->
              let events1 := LawEnforcement.generateEvents laws (entropy 7 (2 * i)) in
              let events2 :=
                LawEnforcement.generateEvents laws (entropy 7 (2 * i + 1)) in
              stringify_state
                (fold_evolve (fold_evolve (LawEnforcement.initialState laws) events1)
                   events2)
              = stringify_state
                  (fold_evolve (LawEnforcement.initialState laws)
                     (events1 ++ events2))).
Proof.
  intros. split; [reflexivity |].
  split; [apply LawEnforcementFacts.names_in_order |].
  split; [apply (LawEnforcementFacts.all_counted LawEnforcement.passed) |].
  assert (Henforced :
    enforced
    = if negb (LawEnforcement.allPassed suite) then
        inl (JsError
               (LawEnforcement.errorMessage suite
                  (List.filter (fun r => negb (LawEnforcement.passed r))
                     (LawEnforcement.results suite))))
      else
        inr ("✅ All 12 Category Theory Laws Verified (" +:+
             show_nat (LawEnforcement.passedCount suite) +:+ "/" +:+
             show_nat (LawEnforcement.totalCount suite) +:+ ")"))
    by reflexivity.
  rewrite Henforced. clear Henforced.
  split; [| split; [| split; [| split]]].
  - intros ->. cbn [negb]. eauto.
  - intros ->. cbn [negb]. eexists. split; [reflexivity |].
    intros r Hin Hfailed. apply LawEnforcementFacts.message_shows.
    apply filter_In. split; [exact Hin | now rewrite Hfailed].
  - reflexivity.
  - unfold LawEnforcement.verifyCQRSCommutativity.
    rewrite LawEnforcementFacts.verdict_of_assertion by reflexivity.
    rewrite LawEnforcementFacts.fc_assert_verdict.
    split; intros H i Hi; specialize (H i Hi); cbv zeta in *;
      now apply String.eqb_eq.
  - unfold LawEnforcement.verifyReplayDeterminism.
    rewrite LawEnforcementFacts.verdict_of_assertion by reflexivity.
    rewrite LawEnforcementFacts.fc_assert_verdict.
    split; intros H i Hi; specialize (H i Hi); cbv zeta in *.
    + now apply bool_decide_eq_true in H.
    + now apply bool_decide_eq_true.
Qed.

(** C4, as the code has it: checks 10, 11 and 12 return [passed = true]
    for every domain specification, so there is none for which one of
    them reports a failure. *)
Theorem stub_checks_always_pass :
  forall (Raw Domain Command Event State View Answer Env Seed : Type)
         (laws : LawEnforcement.DomainLaws Raw Domain Command Event State View Answer Env Seed),
    LawEnforcement.passed (LawEnforcement.verifyMonoidalAggregation laws) = true
    /\ LawEnforcement.passed (LawEnforcement.verifyPullbackCorrectness laws) = true
    /\ LawEnforcement.passed (LawEnforcement.verifyPushoutSchemaEvolution laws) = true.
Proof. intros. repeat split. Qed.

(** C5, amended. The outcome of the verification does not depend on
    [decide]: putting any other [decide] in a specification, deterministic
    or not, with its other members unchanged, changes neither the suite
    [verifyAllLaws] returns nor what [enforceLaws] and [verifyLaws()] do.
    Law 1 compares two folds of [evolve] and two folds of [project] over
    generated events. *)
Theorem verdict_ignores_decide :
  forall (Raw Domain Command Event State View Answer Env Seed : Type)
         (stringify_state : State -> option string)
         (stringify_view : View -> option string)
         (typeof_answer : Answer -> string)
         (with_id : Event -> string -> Event)
         (entropy : nat -> nat -> Seed)
         (fc_report : nat -> string)
         (spec : ComposeGeneric.DomainSpec Raw Domain Command Event State View Answer Env Seed)
         (decide' : Env -> State -> Command -> list Event)
         (_lawsVerified : bool),
    let laws := ComposeGeneric.laws_of spec in
    let laws' := ComposeGeneric.laws_of (Variants.spec_with_decide spec decide') in
    laws' = Variants.with_decide laws decide'
    /\ LawEnforcement.verifyAllLaws stringify_state stringify_view typeof_answer
         with_id entropy fc_report laws'
       = LawEnforcement.verifyAllLaws stringify_state stringify_view typeof_answer
           with_id entropy fc_report laws
    /\ LawEnforcement.enforceLaws stringify_state stringify_view typeof_answer
         with_id entropy fc_report laws'
       = LawEnforcement.enforceLaws stringify_state stringify_view typeof_answer
           with_id entropy fc_report laws
    /\ ComposeGeneric.verifyLaws stringify_state stringify_view typeof_answer
         with_id entropy fc_report (Variants.spec_with_decide spec decide')
         _lawsVerified
       = ComposeGeneric.verifyLaws stringify_state stringify_view typeof_answer
           with_id entropy fc_report spec _lawsVerified.
Proof. intros. repeat split. Qed.

(** C5 as stated fails on the counter whose [decide] adds the wall clock
    to the amount: two calls of that [decide] with the same state and
    command give different events, every other member is that of
    [CounterSpec], and yet [verifyLaws()] returns normally and the result
    of Law 1 has [passed = true]. *)
Lemma clocked_counter_passes_purity :
  Variants.nondeterministic (ComposeGeneric.decide Counter.ClockedCounterSpec)
  /\ Counter.ClockedCounterSpec
     = Variants.spec_with_decide Counter.CounterSpec Counter.decide_by_the_clock
  /\ ComposeGeneric.verifyLaws Counter.stringify_state Counter.stringify_view
       Counter.typeof_answer Counter.with_id Counter.entropy Counter.fc_report
       Counter.ClockedCounterSpec false
     = (inr tt, true)
  /\ hd_error
       (LawEnforcement.results
          (LawEnforcement.verifyAllLaws Counter.stringify_state Counter.stringify_view
             Counter.typeof_answer Counter.with_id Counter.entropy Counter.fc_report
             (ComposeGeneric.laws_of Counter.ClockedCounterSpec)))
     = Some (LawEnforcement.mkResult "1. Purity" true None
               "All functions are deterministic (same input → same output)").
Proof.
  split.
  - exists (Counter.mkClock 0 "2023-01-01T00:00:00.000Z"),
      (Counter.mkClock 1 "2023-01-01T00:00:00.001Z"),
      (Counter.mkState 0), (Counter.mkCommand "Increment" 5 None).
    discriminate.
  - split; [reflexivity |]. split; vm_compute; reflexivity.
Qed.

(** The suite on the counter whose [deriveView] returns nothing and
    whose [fold] stops after the first event: laws 4 and 7 fail, the other
    ten pass, and the one error of [enforceLaws] shows both. *)
Lemma suite_reports_every_law_witness :
  let suite :=
    LawEnforcement.verifyAllLaws Counter.stringify_state Counter.stringify_view
      Counter.typeof_maybe Counter.with_id Counter.entropy Counter.fc_report
      (ComposeGeneric.laws_of Counter.CarelessCounterSpec) in
  LawEnforcement.allPassed suite = false
  /\ map LawEnforcement.passed (LawEnforcement.results suite)
     = [true; true; true; false; true; true; false; true; true; true; true; true]
  /\ exists message,
       LawEnforcement.enforceLaws Counter.stringify_state Counter.stringify_view
         Counter.typeof_maybe Counter.with_id Counter.entropy Counter.fc_report
         (ComposeGeneric.laws_of Counter.CarelessCounterSpec)
       = inl (JsError message)
       /\ occurs_in "4. CQRS Commutativity: CQRS consistency must hold" message
       /\ occurs_in
            "7. Replay Determinism: Replay must be deterministic and associative"
            message.
Proof.
  intros suite.
  assert (Hfalse : LawEnforcement.allPassed suite = false)
    by (vm_compute; reflexivity).
  split; [exact Hfalse |]. split; [vm_compute; reflexivity |].
  destruct (suite_reports_every_law _ _ _ _ _ _ _ _ _
              Counter.stringify_state Counter.stringify_view Counter.typeof_maybe
              Counter.with_id Counter.entropy Counter.fc_report
              (ComposeGeneric.laws_of Counter.CarelessCounterSpec))
    as [_ [_ [_ [_ [Hthrows [Hresults _]]]]]].
  destruct (Hthrows Hfalse) as [message [Hthrown Hshown]].
  exists message. split; [exact Hthrown |]. split.
  - apply (Hshown
             (LawEnforcement.verifyCQRSCommutativity Counter.typeof_maybe
                Counter.entropy Counter.fc_report
                (ComposeGeneric.laws_of Counter.CarelessCounterSpec))).
    + rewrite Hresults. do 3 right. left. reflexivity.
    + vm_compute. reflexivity.
  - apply (Hshown
             (LawEnforcement.verifyReplayDeterminism Counter.stringify_state
                Counter.entropy Counter.fc_report
                (ComposeGeneric.laws_of Counter.CarelessCounterSpec))).
    + rewrite Hresults. do 6 right. left. reflexivity.
    + vm_compute. reflexivity.
Defined.

(** ** The fold utility and the shortener's arrows *)

Lemma fold_app {S E : Type} (f : S -> E -> S) (s : S) (xs ys : list E) :
  Spec.fold f (Spec.fold f s xs) ys = Spec.fold f s (xs ++ ys).
Proof. unfold Spec.fold. now rewrite fold_left_app. Qed.

(** C2. Folding [ys] from the result of folding [xs] is folding
    [xs ++ ys], for [evolve] from any seed state and for [project] from
    any seed view; [fold] is the left reduction of [spec.ts], and the
    same holds of the [fold] the class [DomainSpec] defines. *)
Theorem fold_is_associative :
  forall (State View Event : Type)
         (evolve : State -> Event -> State) (project : View -> Event -> View)
         (s0 : State) (v0 : View) (xs ys : list Event),
    Spec.fold evolve (Spec.fold evolve s0 xs) ys = Spec.fold evolve s0 (xs ++ ys)
    /\ Spec.fold project (Spec.fold project v0 xs) ys = Spec.fold project v0 (xs ++ ys)
    /\ ComposeGeneric.default_fold _ _ evolve
         (ComposeGeneric.default_fold _ _ evolve s0 xs) ys
       = ComposeGeneric.default_fold _ _ evolve s0 (xs ++ ys)
    /\ ComposeGeneric.default_fold _ _ project
         (ComposeGeneric.default_fold _ _ project v0 xs) ys
       = ComposeGeneric.default_fold _ _ project v0 (xs ++ ys).
Proof.
  intros. repeat split; try apply fold_app;
    unfold ComposeGeneric.default_fold; now rewrite fold_left_app.
Qed.

(** On the shortener itself, from [s0]. *)
Example shortener_replay (xs ys : list Spec.Event) :
  Spec.fold Spec.evolve (Spec.fold Spec.evolve Spec.s0 xs) ys
  = Spec.fold Spec.evolve Spec.s0 (xs ++ ys).
Proof. apply fold_app. Qed.

(** C10. In the URL shortener [evolve] never lowers [version], and so no
    fold of [evolve] does, from [s0] or from any other state. *)
Theorem version_never_decreases :
  (forall (s : Spec.State) (e : Spec.Event),
      (Spec.version s <= Spec.version (Spec.evolve s e))%Z)
  /\ (forall (s : Spec.State) (E : list Spec.Event),
        (Spec.version s <= Spec.version (Spec.fold Spec.evolve s E))%Z)
  /\ (forall E : list Spec.Event,
        (Spec.version Spec.s0 <= Spec.version (Spec.fold Spec.evolve Spec.s0 E))%Z).
Proof.
  assert (Hstep : forall s e, (Spec.version s <= Spec.version (Spec.evolve s e))%Z)
    by (intros s []; simpl; lia).
  assert (Hfold : forall E s,
            (Spec.version s <= Spec.version (Spec.fold Spec.evolve s E))%Z).
  { unfold Spec.fold. induction E as [| e E IH]; intros s; simpl; [lia |].
    specialize (IH (Spec.evolve s e)). specialize (Hstep s e). lia. }
  repeat split; auto.
Qed.

(** The version is the number of [Created] and [Expired] events
    folded. *)
Example version_counts :
  Spec.version
    (Spec.fold Spec.evolve Spec.s0
       [Spec.Created "abc" "https://x.com" None "e1" "t1";
        Spec.Clicked "abc" "e2" "t2";
        Spec.Expired "abc" "e3" "t3"]) = 2%Z.
Proof. reflexivity. Qed.

(** ** Law 7 on a specification that keeps the class's [fold] *)

Module ReplayFacts.

Lemma fc_assert_passes {A : Type} (report : nat -> string) (numRuns : nat)
    (draw : nat -> A) (predicate : A -> bool) :
  (forall i, predicate (draw i) = true) ->
  LawEnforcement.fc_assert report numRuns draw predicate = inr tt.
Proof.
  intros Hall. unfold LawEnforcement.fc_assert.
  destruct (find _ _) as [i |] eqn:Hfind; [| reflexivity].
  apply find_some in Hfind as [_ Hbad]. now rewrite Hall in Hbad.
Qed.

(** The check of Law 7 compares the two sides of fold associativity on
    fifty pairs of generated sequences; with [reduce] for [fold] they
    agree on every pair. *)
Lemma replay_check_passes
    {Raw Domain Command Event State View Answer Env Seed : Type}
    (stringify_state : State -> option string)
    (entropy : nat -> nat -> Seed) (fc_report : nat -> string)
    (laws : LawEnforcement.DomainLaws Raw Domain Command Event State View Answer Env Seed) :
  LawEnforcement.fold laws = ComposeGeneric.default_fold ->
  LawEnforcement.passed
    (LawEnforcement.verifyReplayDeterminism stringify_state entropy fc_report laws)
  = true.
Proof.
  intros Hfold. unfold LawEnforcement.verifyReplayDeterminism.
  rewrite fc_assert_passes; [reflexivity |].
  intros i. rewrite Hfold. unfold ComposeGeneric.default_fold.
  rewrite fold_left_app. now apply bool_decide_eq_true.
Qed.

End ReplayFacts.

(** ** More of [spec.ts]: the arrows of the URL shortener *)

Module SpecFacts.
Import Spec.

Lemma rec_get_set_eq (r : Rec) (k v : string) : rec_get (rec_set r k v) k = Some v.
Proof.
  induction r as [| [k' v'] r IH]; simpl.
  - now rewrite String.eqb_refl.
  - destruct (String.eqb k' k) eqn:Hk; simpl; rewrite Hk; [reflexivity | exact IH].
Qed.

Lemma rec_get_set_ne (r : Rec) (k k' v : string) :
  k <> k' -> rec_get (rec_set r k v) k' = rec_get r k'.
Proof.
  intros Hne. induction r as [| [k0 v0] r IH]; simpl.
  - apply String.eqb_neq in Hne. now rewrite Hne.
  - destruct (String.eqb k0 k) eqn:Hk; simpl.
    + apply String.eqb_eq in Hk. subst k0.
      apply String.eqb_neq in Hne. now rewrite Hne.
    + destruct (String.eqb k0 k'); [reflexivity | exact IH].
Qed.

Lemma rec_get_remove_eq (r : Rec) (k : string) : rec_get (rec_remove r k) k = None.
Proof.
  unfold rec_remove. induction r as [| [k0 v0] r IH]; simpl; [reflexivity |].
  destruct (String.eqb k0 k) eqn:Hk; simpl; [exact IH | now rewrite Hk].
Qed.

Lemma rec_get_remove_ne (r : Rec) (k k' : string) :
  k <> k' -> rec_get (rec_remove r k) k' = rec_get r k'.
Proof.
  intros Hne. unfold rec_remove. induction r as [| [k0 v0] r IH]; simpl; [reflexivity |].
  destruct (String.eqb k0 k) eqn:Hk; simpl.
  - apply String.eqb_eq in Hk. subst k0.
    apply String.eqb_neq in Hne. now rewrite Hne.
  - destruct (String.eqb k0 k'); [reflexivity | exact IH].
Qed.

End SpecFacts.

(** X1. [evolve] with a [Created] event stores the link: afterwards
    [byShort[short]] is [long], [byLong[long]] is [short] and [short] is
    active, while every other short keeps its entry and its status. *)
Theorem created_link_is_stored :
  forall (s : Spec.State) (short long : string) (userId : option string)
         (id timestamp : string),
    let s' := Spec.evolve s (Spec.Created short long userId id timestamp) in
    Spec.rec_get (Spec.byShort s') short = Some long
    /\ Spec.rec_get (Spec.byLong s') long = Some short
    /\ short ∈ Spec.active s'
    /\ forall k, k <> short ->
         Spec.rec_get (Spec.byShort s') k = Spec.rec_get (Spec.byShort s) k
         /\ (k ∈ Spec.active s' <-> k ∈ Spec.active s).
Proof.
  intros. subst s'. simpl. repeat split.
  - apply SpecFacts.rec_get_set_eq.
  - apply SpecFacts.rec_get_set_eq.
  - set_solver.
  - apply SpecFacts.rec_get_set_ne. congruence.
  - set_solver.
  - set_solver.
Qed.

(** X2. [evolve] with an [Expired] event removes the link: afterwards
    [byShort] has no entry for [short], [short] is not active, the entry
    of [byLong] under the address the short pointed to is gone, and every
    other short keeps its entry and its status. *)
Theorem expired_link_is_gone :
  forall (s : Spec.State) (short id timestamp : string),
    let s' := Spec.evolve s (Spec.Expired short id timestamp) in
    Spec.rec_get (Spec.byShort s') short = None
    /\ (short ∉ Spec.active s')
    /\ (forall long, Spec.rec_get (Spec.byShort s) short = Some long ->
                     Spec.rec_get (Spec.byLong s') long = None)
    /\ forall k, k <> short ->
         Spec.rec_get (Spec.byShort s') k = Spec.rec_get (Spec.byShort s) k
         /\ (k ∈ Spec.active s' <-> k ∈ Spec.active s).
Proof.
  intros. subst s'. simpl. repeat split.
  - apply SpecFacts.rec_get_remove_eq.
  - set_solver.
  - intros long Hlong. rewrite Hlong. simpl. apply SpecFacts.rec_get_remove_eq.
  - apply SpecFacts.rec_get_remove_ne. congruence.
  - set_solver.
  - set_solver.
Qed.

(** X3. The active shorts are exactly the keys of [byShort]: this holds
    of [s0], every [evolve] keeps it, and so it holds after any fold of
    [evolve] from [s0]. *)
Theorem active_shorts_are_the_keys :
  Spec.active_are_keys Spec.s0
  /\ (forall s e, Spec.active_are_keys s -> Spec.active_are_keys (Spec.evolve s e))
  /\ (forall E, Spec.active_are_keys (Spec.fold Spec.evolve Spec.s0 E)).
Proof.
  assert (H0 : Spec.active_are_keys Spec.s0).
  { intros k. simpl. split; [set_solver | congruence]. }
  assert (Hstep : forall s e, Spec.active_are_keys s ->
                              Spec.active_are_keys (Spec.evolve s e)).
  { intros s e Hs k. destruct e as [short long u i t | | short i t |]; simpl;
      try apply Hs.
    - destruct (String.eqb_spec short k) as [-> | Hne].
      + rewrite SpecFacts.rec_get_set_eq. split; [congruence | set_solver].
      + rewrite SpecFacts.rec_get_set_ne by assumption.
        rewrite <- (Hs k). set_solver.
    - destruct (String.eqb_spec short k) as [-> | Hne].
      + rewrite SpecFacts.rec_get_remove_eq. split; [set_solver | congruence].
      + rewrite SpecFacts.rec_get_remove_ne by assumption.
        rewrite <- (Hs k). set_solver. }
  split; [exact H0 |]. split; [exact Hstep |].
  intros E. unfold Spec.fold.
  assert (Hall : forall s, Spec.active_are_keys s ->
                           Spec.active_are_keys (fold_left Spec.evolve E s)).
  { induction E as [| e E IH]; intros s Hs; simpl; auto. }
  now apply Hall.
Qed.

(** X4. After a fold of [evolve], [version] has grown by the number of
    [Created] and [Expired] events folded; [Clicked] and [CustomTaken]
    do not count. *)
Theorem version_counts_created_and_expired :
  forall (s : Spec.State) (E : list Spec.Event),
    Spec.version (Spec.fold Spec.evolve s E)
    = (Spec.version s + Z.of_nat (length (List.filter Spec.bumps_version E)))%Z.
Proof.
  intros s E. unfold Spec.fold. revert s.
  induction E as [| e E IH]; intros s; simpl; [lia |].
  rewrite IH. destruct e; simpl; lia.
Qed.

(** X5. [decide] gives at most one event, and that event carries the
    command's identifier when it has one (a random one otherwise) and the
    time of the call. *)
Theorem decide_gives_at_most_one_event :
  forall (amb : Spec.Ambient) (s : Spec.State) (c : Spec.Command),
    (length (Spec.decide amb s c) <= 1)%nat
    /\ forall e, In e (Spec.decide amb s c) ->
         Spec.event_id e = or_else (Spec.command_id c) (Spec.random_id amb)
         /\ Spec.event_timestamp e = Spec.now_iso amb.
Proof.
  intros amb s c. unfold Spec.decide.
  destruct c as [long custom userId id | short id | short id]; simpl.
  - destruct (Spec.rec_get _ _) as [l |]; [| simpl; split; [lia |]].
    + destruct (truthy l && negb (String.eqb l long)); simpl.
      * split; [lia |]. intros e [<- | []]. now split.
      * destruct (String.eqb l long); simpl.
        -- split; [lia | contradiction].
        -- split; [lia |]. intros e [<- | []]. now split.
    + intros e [<- | []]. now split.
  - destruct (bool_decide _); simpl; split; try lia; try contradiction.
    intros e [<- | []]. now split.
  - destruct (bool_decide _); simpl; split; try lia; try contradiction.
    intros e [<- | []]. now split.
Qed.

(** X6. Creating the same link again is a no-op: once the [Created]
    event that [decide] gave for a [Create] command has been applied,
    [decide] gives no event for that command, whenever it is asked. *)
Theorem create_again_decides_nothing :
  forall (amb amb' : Spec.Ambient) (s : Spec.State)
         (long : string) (custom userId id : option string) (e : Spec.Event),
    Spec.decide amb s (Spec.Create long custom userId id) = [e] ->
    Spec.bumps_version e = true ->
    Spec.decide amb' (Spec.evolve s e) (Spec.Create long custom userId id) = [].
Proof.
  intros amb amb' s long custom userId id e Hdec Hcreated.
  assert (He : e = Spec.Created (or_else custom (Spec.genShort long)) long userId
                     (or_else id (Spec.random_id amb)) (Spec.now_iso amb)).
  { unfold Spec.decide in Hdec. simpl in Hdec.
    destruct (Spec.rec_get _ _) as [l |].
    - destruct (truthy l && negb (String.eqb l long)).
      + injection Hdec as <-. discriminate Hcreated.
      + destruct (String.eqb l long); [discriminate Hdec | now injection Hdec].
    - now injection Hdec. }
  subst e. unfold Spec.decide. simpl.
  rewrite SpecFacts.rec_get_set_eq, String.eqb_refl.
  now rewrite andb_false_r.
Qed.

(** The first link asked of [s0]. *)
Lemma create_again_decides_nothing_witness :
  Spec.decide (Spec.mkAmbient "r2" "2023-01-02T00:00:00.000Z")
    (Spec.evolve Spec.s0
       (Spec.Created "5zoqck" "https://x.com" None "c1" "2023-01-01T00:00:00.000Z"))
    (Spec.Create "https://x.com" None None (Some "c1")) = [].
Proof.
  apply (create_again_decides_nothing
           (Spec.mkAmbient "r1" "2023-01-01T00:00:00.000Z")
           (Spec.mkAmbient "r2" "2023-01-02T00:00:00.000Z") Spec.s0
           "https://x.com" None None (Some "c1")
           (Spec.Created "5zoqck" "https://x.com" None "c1" "2023-01-01T00:00:00.000Z"));
    reflexivity.
Defined.

(** X7. A [Create] command never changes a link that exists: a short
    that points to a non-empty address points to the same address after
    the events [decide] gives for the command have been applied. *)
Theorem create_keeps_existing_links :
  forall (amb : Spec.Ambient) (s : Spec.State)
         (long : string) (custom userId id : option string) (k l : string),
    Spec.rec_get (Spec.byShort s) k = Some l ->
    truthy l = true ->
    Spec.rec_get
      (Spec.byShort
         (Spec.fold Spec.evolve s
            (Spec.decide amb s (Spec.Create long custom userId id)))) k
    = Some l.
Proof.
  intros amb s long custom userId id k l Hk Hl. unfold Spec.decide. simpl.
  set (short := or_else custom (Spec.genShort long)).
  destruct (Spec.rec_get (Spec.byShort s) short) as [l0 |] eqn:Hshort.
  - destruct (truthy l0 && negb (String.eqb l0 long)) eqn:Htaken; [exact Hk |].
    destruct (String.eqb l0 long) eqn:Hsame; [exact Hk |].
    simpl. destruct (String.eqb_spec short k) as [<- | Hne].
    + rewrite Hshort in Hk. injection Hk as ->.
      rewrite Hl in Htaken. discriminate Htaken.
    + now rewrite SpecFacts.rec_get_set_ne.
  - simpl. rewrite SpecFacts.rec_get_set_ne; [exact Hk |].
    intros <-. congruence.
Qed.

(** The custom name [mine] asked for another address. *)
Lemma create_keeps_existing_links_witness :
  Spec.rec_get
    (Spec.byShort
       (Spec.fold Spec.evolve
          (Spec.mkState 1 [("mine", "https://x.com")] [("https://x.com", "mine")]
             {[ "mine" ]})
          (Spec.decide (Spec.mkAmbient "r1" "2023-01-01T00:00:00.000Z")
             (Spec.mkState 1 [("mine", "https://x.com")] [("https://x.com", "mine")]
                {[ "mine" ]})
             (Spec.Create "https://y.com" (Some "mine") None None)))) "mine"
  = Some "https://x.com".
Proof.
  apply (create_keeps_existing_links (Spec.mkAmbient "r1" "2023-01-01T00:00:00.000Z")
           (Spec.mkState 1 [("mine", "https://x.com")] [("https://x.com", "mine")]
              {[ "mine" ]})
           "https://y.com" (Some "mine") None None "mine" "https://x.com");
    reflexivity.
Defined.

(** X8. Resolving never changes the state: the only event [decide] gives
    for a [Resolve] command is [Clicked], which [evolve] ignores, as it
    ignores [CustomTaken]. *)
Theorem resolve_leaves_the_state :
  forall (amb : Spec.Ambient) (s : Spec.State) (short : string) (id : option string),
    Spec.fold Spec.evolve s (Spec.decide amb s (Spec.Resolve short id)) = s
    /\ (forall sh i t, Spec.evolve s (Spec.Clicked sh i t) = s)
    /\ (forall cu i t, Spec.evolve s (Spec.CustomTaken cu i t) = s).
Proof.
  intros. repeat split. unfold Spec.decide.
  now destruct (bool_decide _).
Qed.

(** X9. Expiring an active short takes it out of use: after the events
    [decide] gives for the [Expire] command, the short is not active, has
    no entry, and neither a [Resolve] nor another [Expire] of it gives an
    event. *)
Theorem expired_short_is_out_of_use :
  forall (amb amb' : Spec.Ambient) (s : Spec.State) (short : string)
         (id id' : option string),
    short ∈ Spec.active s ->
    let s' := Spec.fold Spec.evolve s (Spec.decide amb s (Spec.Expire short id)) in
    (short ∉ Spec.active s')
    /\ Spec.rec_get (Spec.byShort s') short = None
    /\ Spec.decide amb' s' (Spec.Resolve short id') = []
    /\ Spec.decide amb' s' (Spec.Expire short id') = [].
Proof.
  intros amb amb' s short id id' Hactive s'. subst s'.
  unfold Spec.decide at 1 2 4 6. simpl.
  rewrite bool_decide_eq_true_2 by assumption. simpl.
  assert (Hgone : short ∉ Spec.active s ∖ {[ short ]}) by set_solver.
  split; [exact Hgone |]. split; [apply SpecFacts.rec_get_remove_eq |].
  unfold Spec.decide. simpl.
  now rewrite bool_decide_eq_false_2 by assumption.
Qed.

Lemma expired_short_is_out_of_use_witness :
  Spec.decide (Spec.mkAmbient "r2" "2023-01-02T00:00:00.000Z")
    (Spec.fold Spec.evolve
       (Spec.mkState 1 [("mine", "https://x.com")] [("https://x.com", "mine")]
          {[ "mine" ]})
       (Spec.decide (Spec.mkAmbient "r1" "2023-01-01T00:00:00.000Z")
          (Spec.mkState 1 [("mine", "https://x.com")] [("https://x.com", "mine")]
             {[ "mine" ]})
          (Spec.Expire "mine" None)))
    (Spec.Resolve "mine" None) = [].
Proof.
  apply (expired_short_is_out_of_use
           (Spec.mkAmbient "r1" "2023-01-01T00:00:00.000Z")
           (Spec.mkAmbient "r2" "2023-01-02T00:00:00.000Z")
           (Spec.mkState 1 [("mine", "https://x.com")] [("https://x.com", "mine")]
              {[ "mine" ]})
           "mine" None None).
  vm_compute. set_solver.
Defined.

(** ** [genShort], [normalize], joins *)

Module ShortFacts.
Import Spec.

Lemma digit36_is_base36 (n : Z) : is_base36 (digit36 (n mod 36)) = true.
Proof.
  assert (Hall : forallb (fun k => is_base36 (digit36 (Z.of_nat k))) (seq 0 36) = true)
    by reflexivity.
  rewrite forallb_forall in Hall.
  assert (Hrange : (0 <= n mod 36 < 36)%Z) by (apply Z.mod_pos_bound; lia).
  specialize (Hall (Z.to_nat (n mod 36))).
  rewrite Z2Nat.id in Hall by lia.
  apply Hall. apply in_seq. lia.
Qed.

Lemma to_base36_from_chars (fuel : nat) (n : Z) (acc : string) :
  all_chars is_base36 acc = true ->
  all_chars is_base36 (to_base36_from fuel n acc) = true.
Proof.
  revert n acc. induction fuel as [| fuel IH]; intros n acc Hacc; simpl; [exact Hacc |].
  assert (Hacc' : all_chars is_base36 (String (digit36 (n mod 36)) acc) = true)
    by (simpl; now rewrite digit36_is_base36).
  destruct (n / 36 =? 0)%Z; [exact Hacc' | now apply IH].
Qed.

Lemma to_base36_from_length (fuel : nat) (n : Z) (acc : string) :
  (String.length acc <= String.length (to_base36_from fuel n acc))%nat
  /\ (fuel <> 0%nat ->
      (String.length acc < String.length (to_base36_from fuel n acc))%nat).
Proof.
  revert n acc. induction fuel as [| fuel IH]; intros n acc; simpl.
  - split; [lia | congruence].
  - destruct (n / 36 =? 0)%Z; simpl; [lia |].
    destruct (IH (n / 36)%Z (String (digit36 (n mod 36)) acc)) as [Hle _].
    simpl in Hle. lia.
Qed.

Lemma substring_chars (p : ascii -> bool) (m : nat) (s : string) :
  all_chars p s = true -> all_chars p (String.substring 0 m s) = true.
Proof.
  revert s. induction m as [| m IH]; intros s Hs.
  - now destruct s.
  - destruct s as [| a s]; [reflexivity |]. simpl in *.
    apply andb_true_iff in Hs as [Ha Hs]. now rewrite Ha, IH.
Qed.

Lemma substring_length (m : nat) (s : string) :
  String.length (String.substring 0 m s) = Nat.min m (String.length s).
Proof.
  revert s. induction m as [| m IH]; intros s.
  - now destruct s.
  - destruct s as [| a s]; [reflexivity |]. simpl. now rewrite IH.
Qed.

End ShortFacts.

(** X10. [genShort] gives between one and six characters, each of them a
    digit or a lower-case letter, whatever the address. *)
Theorem genShort_is_short_and_base36 :
  forall long : string,
    (1 <= String.length (Spec.genShort long) <= 6)%nat
    /\ Spec.all_chars Spec.is_base36 (Spec.genShort long) = true.
Proof.
  intros long. unfold Spec.genShort, Spec.to_base36.
  set (n := Z.abs (Spec.hash_loop long 0)).
  split.
  - rewrite ShortFacts.substring_length.
    destruct (ShortFacts.to_base36_from_length (S (Z.to_nat (Z.log2 n))) n "")
      as [_ Hlt].
    specialize (Hlt ltac:(discriminate)).
    set (digits := Spec.to_base36_from _ _ _) in *. simpl in Hlt. lia.
  - apply ShortFacts.substring_chars, ShortFacts.to_base36_from_chars. reflexivity.
Qed.

(** X11. [normalize] accepts exactly the inputs whose [url] is a
    non-empty string, and throws [Error('Invalid URL')] for every other;
    the domain object it returns has that string as [url], and its
    optional fields are never an empty string. *)
Theorem normalize_wants_a_url :
  forall r : Spec.Raw,
    (forall u, Spec.raw_url r = Spec.UString u -> u <> "" ->
               exists d, Spec.normalize r = inr d /\ Spec.url d = u)
    /\ ((forall u, Spec.raw_url r = Spec.UString u -> u = "") ->
        Spec.normalize r = inl (JsError "Invalid URL"))
    /\ (forall d, Spec.normalize r = inr d ->
                  Spec.raw_url r = Spec.UString (Spec.url d)
                  /\ Spec.url d <> ""
                  /\ Spec.custom d <> Some ""
                  /\ Spec.short d <> Some ""
                  /\ Spec.userId d <> Some "").
Proof.
  assert (Hts : forall u s, Spec.truthy_string u = Some s -> u = Spec.UString s /\ s <> "").
  { intros [s0 | | b] s; simpl; try discriminate.
    destruct s0; simpl; [discriminate |]. intros [= <-]. now split. }
  assert (Hne : forall u, Spec.truthy_string u <> Some "").
  { intros u Hu. apply Hts in Hu as [_ Hu]. congruence. }
  intros r. unfold Spec.normalize. split; [| split].
  - intros u Hu Hnonempty. rewrite Hu. simpl.
    destruct u; [congruence |]. simpl. eauto.
  - intros Hall. destruct (Spec.raw_url r) as [u | |]; simpl; try reflexivity.
    now rewrite (Hall u eq_refl).
  - intros d Hd.
    destruct (Spec.truthy_string (Spec.raw_url r)) as [u |] eqn:Hu; [| discriminate].
    injection Hd as <-. simpl. destruct (Hts _ _ Hu) as [Hr Hn].
    repeat split; auto.
Qed.

(** X12. [pullbackJoin] returns exactly the joined pairs whose keys are
    equal: a value is in the result if and only if it is [join(a, b)] for
    an [a] of the first collection and a [b] of the second with
    [a.key === b.key]. *)
Theorem pullbackJoin_is_exact :
  forall (A B K R : Type) (eqK : EqDecision K) (key_a : A -> K) (key_b : B -> K)
         (as_ : list A) (bs : list B) (join : A -> B -> R) (r : R),
    In r (Spec.pullbackJoin key_a key_b as_ bs join)
    <-> exists a b, In a as_ /\ In b bs /\ key_a a = key_b b /\ r = join a b.
Proof.
  intros. unfold Spec.pullbackJoin. rewrite in_flat_map. split.
  - intros [a [Ha Hr]]. apply in_map_iff in Hr as [b [<- Hb]].
    apply filter_In in Hb as [Hb Hkey]. apply bool_decide_eq_true in Hkey.
    now exists a, b.
  - intros [a [b [Ha [Hb [Hkey ->]]]]]. exists a. split; [exact Ha |].
    apply in_map. apply filter_In. split; [exact Hb |].
    now apply bool_decide_eq_true.
Qed.

(** The pairs of the example in the repository's tests: one match on
    the key [A]. *)
Example pullbackJoin_on_skus :
  Spec.pullbackJoin fst fst [("A", 1%Z); ("B", 2%Z)] [("A", 9%Z); ("C", 7%Z)]
    (fun a b => (a, b))
  = [(("A", 1%Z), ("A", 9%Z))].
Proof. reflexivity. Qed.
